(** * Calibration: the calibration-report parser, index and heatmap projector

    A shallow embedding of [cirq/google/engine/calibration.py]
    (class [Calibration]) and the properties of its specification.

    Python dictionaries keep their keys in insertion order, and the order is
    observable through iteration, so they are embedded as association lists
    with Python's update discipline (overwrite in place, append when new).
    Exceptions are embedded as an error result; the methods of a constructed
    object run in a small state-and-error monad over the object's fields, so
    that "does not mutate" is a statement about the final state.

    [assert] statements are embedded as raising [AssertionError] (the
    interpreter's default mode). *)

From Stdlib Require Import ZArith String Ascii List Lia.
From stdpp Require Import base decidable option list strings pretty.

Local Open Scope Z_scope.
Local Open Scope string_scope.
Local Open Scope list_scope.

(** ** Python values and exceptions *)

(** The hashable values that occur as dictionary keys and as the
    [timestampMs] field: strings, integers and [None]. *)
Inductive pyval : Type :=
| PStr (s : string)
| PInt (z : Z)
| PNone.

#[global] Instance pyval_eq_dec : EqDecision pyval.
Proof. solve_decision. Defined.

(** [isinstance(key, str)] *)
Definition isinstance_str (key : pyval) : bool :=
  match key with
  | PStr _ => true
  | _ => false
  end.

(** Modelled from the spec: [devices.GridQubit], the value produced by the
    external qubit-identifier parser, is a 2-D grid coordinate compared by
    value (the class itself is not part of the sources). *)
Record GridQubit : Type := mkGridQubit { row : Z; col : Z }.

#[global] Instance GridQubit_eq_dec : EqDecision GridQubit.
Proof. solve_decision. Defined.

(** The exceptions the embedded code can raise, one constructor per raising
    site. *)
Inductive exn : Type :=
| TypeError_string_keys (key : pyval)
    (* 'Calibration metrics only have string keys. Key was {}' *)
| KeyError_not_in_calibration (key : pyval)
    (* 'Metric named {} not in calibration' *)
| AssertionError_no_targets (name : pyval)
    (* 'Only one metric of a given name can have no targets. ...' *)
| AssertionError_single_qubits
    (* 'Heatmaps are only supported if all the targets in a metric are
       single qubits.' *)
| AssertionError_single_values
    (* 'Heatmaps are only supported if all the values in a metric are
       single metric values.' *)
| ValueError_unpack
    (* a failed [(qubit,), (value,)] destructuring *)
| TypeError_int (v : pyval)
    (* int() of something that is neither a number nor a string *)
| ValueError_int (s : string)
    (* invalid literal for int() *)
| ProtoIdError (t : string).
    (* whatever [GridQubit.from_proto_id] raises on a malformed id *)

(** The error taxonomy of the specification, and the exception of the code
    that stands for each of its names. *)
Inductive error_kind : Type :=
| InvalidKeyKind
| MetricNotFound
| DuplicateGlobalMetric
| HeatmapShapeError
| OtherError.

Definition kind_of (e : exn) : error_kind :=
  match e with
  | TypeError_string_keys _ => InvalidKeyKind
  | KeyError_not_in_calibration _ => MetricNotFound
  | AssertionError_no_targets _ => DuplicateGlobalMetric
  | AssertionError_single_qubits => HeatmapShapeError
  | AssertionError_single_values => HeatmapShapeError
  | _ => OtherError
  end.

Inductive result (A : Type) : Type :=
| Ok (a : A)
| Raise (e : exn).
Arguments Ok {A} a.
Arguments Raise {A} e.

(** Sequencing of code that may raise: [x ← c; k] runs [c] and stops at its
    exception. *)
#[global] Instance result_ret : MRet result := fun A a => Ok a.
#[global] Instance result_bind : MBind result := fun A B k r =>
  match r with
  | Ok a => k a
  | Raise e => Raise e
  end.

(** ** Insertion-ordered dictionaries *)

Module OD.

(** A [dict]: its items, oldest first. *)
Abbreviation t K V := (list (K * V)).

Section Dict.
Context {K V : Type} `{EqDecision K}.

(** [d.get(k)] *)
Fixpoint get (k : K) (d : t K V) : option V :=
  match d with
  | [] => None
  | (k', v) :: d' => if decide (k' = k) then Some v else get k d'
  end.

(** [k in d] *)
Definition contains (k : K) (d : t K V) : bool :=
  match get k d with Some _ => true | None => false end.

(** [d[k] = v]: an existing key keeps its position, a new one goes last. *)
Fixpoint set (k : K) (v : V) (d : t K V) : t K V :=
  match d with
  | [] => [(k, v)]
  | (k', v') :: d' =>
      if decide (k' = k) then (k', v) :: d' else (k', v') :: set k v d'
  end.

(** [d.keys()] (also [iter(d)]), [d.values()], [d.items()], [len(d)] *)
Definition keys (d : t K V) : list K := fst <$> d.
Definition values (d : t K V) : list V := snd <$> d.
Definition items (d : t K V) : list (K * V) := d.
Definition len (d : t K V) : nat := length d.

(** No key occurs twice: the representation invariant of a [dict]. *)
Definition wf (d : t K V) : Prop := NoDup (keys d).
End Dict.
End OD.

(** ** [collections.defaultdict(dict)] *)

Module DD.
Section DefaultDict.
Context {K K' V : Type} `{EqDecision K}.

(** [d[k]] on a [defaultdict(dict)]: a missing key is first bound to a new
    empty [dict], so the lookup returns a bucket and the (possibly grown)
    dictionary. *)
Definition getitem (k : K) (d : OD.t K (OD.t K' V))
  : OD.t K' V * OD.t K (OD.t K' V) :=
  match OD.get k d with
  | Some b => (b, d)
  | None => ([], OD.set k [] d)
  end.
End DefaultDict.
End DD.

(** ** Strings and [int()] *)

(** [t.startswith(p)] *)
Definition startswith (t p : string) : bool := String.prefix p t.

(** [t[n:]] *)
Definition slice_from (n : nat) (t : string) : string :=
  String.substring n (String.length t - n) t.

(** [t[1:] if t.startswith('q') else t] *)
Definition strip_q (t : string) : string :=
  if startswith t "q" then slice_from 1 t else t.

(** The characters [int()] skips around a literal of ASCII text: tab, line
    feed, vertical tab, form feed, carriage return and space. *)
Definition is_space (c : ascii) : bool :=
  let n := nat_of_ascii c in
  ((9 <=? n) && (n <=? 13) || (n =? 32))%nat.

Definition digit_of (c : ascii) : option Z :=
  let n := nat_of_ascii c in
  if ((48 <=? n) && (n <=? 57))%nat then Some (Z.of_nat n - 48) else None.

Fixpoint lstrip (l : list ascii) : list ascii :=
  match l with
  | c :: l' => if is_space c then lstrip l' else l
  | [] => []
  end.

Definition strip (l : list ascii) : list ascii :=
  rev (lstrip (rev (lstrip l))).

(** Decimal digits, with single underscores allowed between two digits.
    [seen] tells whether the previous character was a digit. *)
Fixpoint int_digits (acc : Z) (seen : bool) (l : list ascii) : option Z :=
  match l with
  | [] => if seen then Some acc else None
  | c :: l' =>
      match digit_of c with
      | Some d => int_digits (10 * acc + d) true l'
      | None =>
          if Ascii.eqb c "_" then
            if seen then int_digits acc false l' else None
          else None
      end
  end.

(** [int(s)] for a string of ASCII text: optional white space, an optional
    sign, decimal digits. [None] stands for [ValueError]. *)
Definition int_of_string (s : string) : option Z :=
  match strip (list_ascii_of_string s) with
  | "-"%char :: l => Z.opp <$> int_digits 0 false l
  | "+"%char :: l => int_digits 0 false l
  | l => int_digits 0 false l
  end.

(** [int(v)] *)
Definition int (v : pyval) : result Z :=
  match v with
  | PInt z => Ok z
  | PStr s =>
      match int_of_string s with
      | Some z => Ok z
      | None => Raise (ValueError_int s)
      end
  | PNone => Raise (TypeError_int v)
  end.

(** ** The calibration report and the [Calibration] object *)

(** Modelled from the spec: [vis.Heatmap], the external renderer, is handed
    the qubit-to-value map and keeps it; it renders nothing here. *)
Inductive Heatmap (Scalar : Type) : Type :=
| mkHeatmap (value_map : OD.t GridQubit Scalar).
Arguments mkHeatmap {Scalar} value_map.

(** A metric's bucket: tuples of qubits to lists of values; and the
    dictionary of all buckets, by metric name. *)
Abbreviation bucket Scalar := (OD.t (list GridQubit) (list Scalar)).
Abbreviation metric_dict Scalar := (OD.t pyval (bucket Scalar)).

Section Calibration.
Context {Scalar : Type}.

(** [devices.GridQubit.from_proto_id], the external qubit-identifier parser:
    [None] stands for the exception it raises on a malformed id. *)
Variable from_proto_id : string -> option GridQubit.

(** One raw metric record: [metric['name']], [metric['values']] (each value
    a [dict] from a type name to a scalar) and the optional
    [metric['targets']]. *)
Record metric : Type := mkMetric {
  name : pyval;
  values : list (OD.t string Scalar);
  targets : option (list string)
}.

(** The raw payload handed to the constructor. *)
Record payload : Type := mkPayload {
  timestampMs : pyval;
  metrics : list metric
}.

Record Calibration : Type := mkCalibration {
  timestamp : Z;
  _metric_dict : metric_dict Scalar
}.

(** [[v[t] for v in metric['values'] for t in v]] *)
Definition flat_values (m : metric) : list Scalar :=
  v ← values m; omap (fun t => OD.get t v) (OD.keys v).

(** [tuple(devices.GridQubit.from_proto_id(t) for t in targets)] *)
Fixpoint qubits_of (targets : list string) : result (list GridQubit) :=
  match targets with
  | [] => Ok []
  | t :: targets' =>
      match from_proto_id t with
      | Some q => qs ← qubits_of targets'; Ok (q :: qs)
      | None => Raise (ProtoIdError t)
      end
  end.

(** [results[name][key] = flat_values]: the bucket fetched from the
    [defaultdict] is updated in place, that is, where it sits in [results]. *)
Definition setitem2 (name : pyval) (key : list GridQubit)
    (flat_values : list Scalar) (results : metric_dict Scalar)
  : metric_dict Scalar :=
  let '(b, results) := DD.getitem name results in
  OD.set name (OD.set key flat_values b) results.

(** The body of the loop of [_compute_metric_dict], for one record. *)
Definition record_metric (results : metric_dict Scalar) (m : metric)
  : result (metric_dict Scalar) :=
  let name := name m in
  let flat_values := flat_values m in
  match targets m with
  | Some ts =>
      let targets := strip_q <$> ts in
      qubits ← qubits_of targets;
      Ok (setitem2 name qubits flat_values results)
  | None =>
      let '(b, results) := DD.getitem name results in
      if (OD.len b =? 0)%nat then
        Ok (setitem2 name [] flat_values results)
      else Raise (AssertionError_no_targets name)
  end.

(** [for metric in metrics: ...] *)
Fixpoint for_metrics (results : metric_dict Scalar) (ms : list metric)
  : result (metric_dict Scalar) :=
  match ms with
  | [] => Ok results
  | m :: ms' => results' ← record_metric results m; for_metrics results' ms'
  end.

Definition _compute_metric_dict (metrics : list metric)
  : result (metric_dict Scalar) :=
  for_metrics [] metrics.

(** [Calibration(calibration)] *)
Definition __init__ (calibration : payload) : result Calibration :=
  timestamp ← int (timestampMs calibration);
  metric_dict ← _compute_metric_dict (metrics calibration);
  Ok (mkCalibration timestamp metric_dict).

(** *** Methods

    A method takes the object and returns its outcome together with the
    object as the call leaves it. *)
Definition M (A : Type) : Type := Calibration -> result A * Calibration.

#[local] Instance M_ret : MRet M := fun A a self => (Ok a, self).
#[local] Instance M_bind : MBind M := fun A B k c self =>
  match c self with
  | (Ok a, self') => k a self'
  | (Raise e, self') => (Raise e, self')
  end.

Definition raise {A} (e : exn) : M A := fun self => (Raise e, self).

(** [key in self._metric_dict] *)
Definition metric_dict_contains (key : pyval) : M bool :=
  fun self => (Ok (OD.contains key (_metric_dict self)), self).

(** [self._metric_dict[key]]: the dictionary is the [defaultdict] built by
    the constructor, so this access is the inserting one. *)
Definition metric_dict_getitem (key : pyval) : M (bucket Scalar) :=
  fun self =>
    let '(b, d) := DD.getitem key (_metric_dict self) in
    (Ok b, mkCalibration (timestamp self) d).

Definition __getitem__ (key : pyval) : M (bucket Scalar) :=
  if negb (isinstance_str key) then raise (TypeError_string_keys key)
  else
    present ← metric_dict_contains key;
    if negb present then raise (KeyError_not_in_calibration key)
    else metric_dict_getitem key.

(** [iter(self._metric_dict)], as the list of names it goes through. *)
Definition __iter__ : M (list pyval) :=
  fun self => (Ok (OD.keys (_metric_dict self)), self).

Definition __len__ : M nat :=
  fun self => (Ok (OD.len (_metric_dict self)), self).

(** [{qubit: value for (qubit,), (value,) in metrics.items()}] *)
Fixpoint value_map_of (items : list (list GridQubit * list Scalar))
    (value_map : OD.t GridQubit Scalar) : result (OD.t GridQubit Scalar) :=
  match items with
  | [] => Ok value_map
  | ([qubit], [value]) :: items' =>
      value_map_of items' (OD.set qubit value value_map)
  | _ :: _ => Raise ValueError_unpack
  end.

Definition heatmap (key : pyval) : M (Heatmap Scalar) :=
  metrics ← __getitem__ key;
  if negb (forallb (fun k => (length k =? 1)%nat) (OD.keys metrics)) then
    raise AssertionError_single_qubits
  else if negb (forallb (fun k => (length k =? 1)%nat) (OD.values metrics)) then
    raise AssertionError_single_values
  else
    fun self =>
      (value_map ← value_map_of (OD.items metrics) []; Ok (mkHeatmap value_map),
       self).

End Calibration.

(** ** A qubit-identifier parser for concrete runs

    [GridQubit.from_proto_id] is not part of the sources: the embedding
    above takes it as a parameter, and the general properties hold for every
    parser. The runs on concrete payloads use the one below. *)

(** A run of decimal digits as a number. *)
Fixpoint decimal (acc : Z) (l : list ascii) : option Z :=
  match l with
  | [] => Some acc
  | c :: l' =>
      match digit_of c with
      | Some d => decimal (10 * acc + d) l'
      | None => None
      end
  end.

(** The text before and after the first ['_']. *)
Fixpoint split_underscore (l : list ascii) : option (list ascii * list ascii) :=
  match l with
  | [] => None
  | c :: l' =>
      if Ascii.eqb c "_" then Some ([], l')
      else '(a, b) ← split_underscore l'; Some (c :: a, b)
  end.

(** Modelled from the spec: the external qubit-identifier parser
    [parse(id: string) -> Qubit] reads a proto-style id [<row>_<col>] (as
    in ["0_0"] for [Qubit(0,0)]) as a 2-D grid coordinate and fails on a
    malformed one. *)
Definition grid_from_proto_id (proto_id : string) : option GridQubit :=
  '(r, c) ← split_underscore (list_ascii_of_string proto_id);
  match r, c with
  | _ :: _, _ :: _ =>
      row ← decimal 0 r; col ← decimal 0 c; Some (mkGridQubit row col)
  | _, _ => None
  end.

(** ** Notions used to state the properties *)

(** The distinct elements of a list, each at its first occurrence. *)
Fixpoint first_occurrences {A} `{EqDecision A} (l : list A) : list A :=
  match l with
  | [] => []
  | x :: l' => x :: filter (fun y => y <> x) (first_occurrences l')
  end.

(** [stripped t t']: [t'] is [t] without its leading ['q'], if it has one. *)
Inductive stripped : string -> string -> Prop :=
| stripped_q (rest : string) : stripped (String "q" rest) rest
| stripped_none (t : string) :
    (forall rest, t <> String "q" rest) -> stripped t t.

Section Queries.
Context {Scalar : Type}.

(** The bucket of a name, empty when the name has none. *)
Definition bucket_of (name : pyval) (results : metric_dict Scalar)
  : bucket Scalar :=
  default [] (OD.get name results).

(** The key under which a record is stored. *)
Definition key_of (from_proto_id : string -> option GridQubit)
    (m : @metric Scalar) : result (list GridQubit) :=
  match targets m with
  | Some ts => qubits_of from_proto_id (strip_q <$> ts)
  | None => Ok []
  end.

(** The shape a bucket must have for a heatmap: every key a single qubit,
    every value list a single value. *)
Definition single_shape (b : bucket Scalar) : Prop :=
  Forall (fun kv => length kv.1 = 1%nat /\ length kv.2 = 1%nat) b.

(** Every dictionary built by the parser is a proper [dict] (no repeated
    key), and so is each of its buckets, none of which is empty. *)
Definition dict_ok (results : metric_dict Scalar) : Prop :=
  OD.wf results /\ Forall (fun nb => OD.wf nb.2 /\ nb.2 <> []) results.

(** A query made on a constructed object, and what it gives back. *)
Inductive call : Type :=
| Get (key : pyval)
| Iterate
| Size.

Inductive outcome : Type :=
| GetOutcome (r : result (bucket Scalar))
| IterateOutcome (r : result (list pyval))
| SizeOutcome (r : result nat).

Definition run_call (c : call) (self : @Calibration Scalar)
  : outcome * @Calibration Scalar :=
  match c with
  | Get key => let '(r, self') := __getitem__ key self in (GetOutcome r, self')
  | Iterate => let '(r, self') := __iter__ self in (IterateOutcome r, self')
  | Size => let '(r, self') := __len__ self in (SizeOutcome r, self')
  end.

(** A sequence of queries on the same object, one after the other. *)
Fixpoint run_calls (cs : list call) (self : @Calibration Scalar)
  : list outcome * @Calibration Scalar :=
  match cs with
  | [] => ([], self)
  | c :: cs' =>
      let '(o, self') := run_call c self in
      let '(os, self'') := run_calls cs' self' in
      (o :: os, self'')
  end.

End Queries.

(** ** [cirq/devices/line_qubit.py]: qubits on a line *)

(** The built-in [range] on integers: how many items it has (the count
    CPython computes from the lower bound, the upper bound and the positive
    step) and the items themselves. *)
Definition range_length (start stop step : Z) : Z :=
  let '(lo, hi, st) :=
    if (0 <? step)%Z then (start, stop, step) else (stop, start, - step) in
  if (hi <=? lo)%Z then 0 else (hi - lo - 1) / st + 1.

Definition range_items (start stop step : Z) : list Z :=
  (fun i : nat => start + Z.of_nat i * step)
    <$> seq 0 (Z.to_nat (range_length start stop step)).

Module LineQubit.

(** [LineQubit(x)] *)
Record t : Type := mk { x : Z }.

#[global] Instance eq_dec : EqDecision t.
Proof. solve_decision. Defined.

(** The qubit ids [is_adjacent] may be given: line qubits, and those of
    another kind. *)
Inductive qid : Type :=
| Line (q : t)
| Grid (g : GridQubit).

(** What may stand on the other side of [+] and [-]. *)
Inductive operand : Type :=
| OInt (i : Z)
| OBool (b : bool)
| OStr (s : string)
| ONone
| OLine (q : t).

(** [isinstance(other, int)]; a [bool] is an [int]. *)
Definition isinstance_int (other : operand) : bool :=
  match other with
  | OInt _ | OBool _ => true
  | _ => false
  end.

(** The number an [int] operand stands for in arithmetic. *)
Definition int_value (other : operand) : Z :=
  match other with
  | OInt i => i
  | OBool b => if b then 1 else 0
  | _ => 0
  end.

Inductive exn : Type :=
| TypeError_add (other : operand)
    (* 'Can only add ints and LineQubits. Instead was {}' *)
| TypeError_sub (other : operand)
    (* 'Can only subtract ints and LineQubits. Instead was{}' *)
| TypeError_range (nargs : nat)
    (* range expected at least 1 / at most 3 arguments *)
| ValueError_range_step.
    (* range() arg 3 must not be zero *)

Inductive outcome (A : Type) : Type :=
| Returns (a : A)
| Raises (e : exn).
Arguments Returns {A} a.
Arguments Raises {A} e.

Definition _comparison_key (self : t) : Z := x self.

(** [isinstance(other, LineQubit) and abs(self.x - other.x) == 1] *)
Definition is_adjacent (self : t) (other : qid) : bool :=
  match other with
  | Line other => (Z.abs (x self - x other) =? 1)%Z
  | Grid _ => false
  end.

(** [range( *range_args)] *)
Definition py_range (range_args : list Z) : outcome (list Z) :=
  match range_args with
  | [stop] => Returns (range_items 0 stop 1)
  | [start; stop] => Returns (range_items start stop 1)
  | [start; stop; step] =>
      if (step =? 0)%Z then Raises ValueError_range_step
      else Returns (range_items start stop step)
  | _ => Raises (TypeError_range (length range_args))
  end.

(** [[LineQubit(i) for i in range( *range_args)]] *)
Definition range (range_args : list Z) : outcome (list t) :=
  match py_range range_args with
  | Returns items => Returns (mk <$> items)
  | Raises e => Raises e
  end.

(** ['cirq.LineQubit({})'.format(self.x)] *)
Definition __repr__ (self : t) : string :=
  "cirq.LineQubit(" +:+ pretty (x self) +:+ ")".

(** ['{}'.format(self.x)] *)
Definition __str__ (self : t) : string := pretty (x self).

Definition __add__ (self : t) (other : operand) : outcome t :=
  if negb (isinstance_int other) then Raises (TypeError_add other)
  else Returns (mk (x self + int_value other)).

Definition __sub__ (self : t) (other : operand) : outcome t :=
  if negb (isinstance_int other) then Raises (TypeError_sub other)
  else Returns (mk (x self - int_value other)).

Definition __neg__ (self : t) : t := mk (- x self).

(** [other + self] is [self + other]. *)
Definition __radd__ (self : t) (other : operand) : outcome t :=
  __add__ self other.

(** [other - self] is [-self + other]. *)
Definition __rsub__ (self : t) (other : operand) : outcome t :=
  __add__ (__neg__ self) other.

End LineQubit.

(** ** Notions used to state further properties of the parser *)

#[global] Instance exn_eq_dec : EqDecision exn.
Proof. solve_decision. Defined.

#[global] Instance result_eq_dec {A} `{EqDecision A} : EqDecision (result A).
Proof. solve_decision. Defined.

(** The timestamps on which [int] above is the interpreter's [int()]: an
    integer, or a string of ASCII characters (a digit of another script is
    outside the text modelled here) short enough for whatever limit the
    interpreter puts on the number of digits it converts. *)
Definition plain_timestamp (v : pyval) : Prop :=
  match v with
  | PStr s =>
      Forall (fun c => (nat_of_ascii c < 128)%nat) (list_ascii_of_string s)
      /\ (String.length s <= 4300)%nat
  | _ => True
  end.

Section ParserNotions.
Context {Scalar : Type}.
Variable from_proto_id : string -> option GridQubit.

(** The records of a payload that write the entry [key] of the bucket of
    [n], in their order. *)
Definition writers (n : pyval) (key : list GridQubit)
    (ms : list (@metric Scalar)) : list (@metric Scalar) :=
  filter (fun m => name m = n /\ key_of from_proto_id m = Ok key) ms.

(** The keys written under [n] by the records of a payload, in their
    order (a record whose targets do not parse writes none). *)
Definition keys_written (n : pyval) (ms : list (@metric Scalar))
  : list (list GridQubit) :=
  omap (fun m =>
          if decide (name m = n) then
            match key_of from_proto_id m with
            | Ok key => Some key
            | Raise _ => None
            end
          else None) ms.

End ParserNotions.

(** * Properties *)

(** ** Facts about insertion-ordered dictionaries *)

Section DictFacts.
Context {K V : Type} `{EqDecision K}.
Implicit Types (d : OD.t K V) (k : K) (v : V).

Lemma get_set_eq k v d : OD.get k (OD.set k v d) = Some v.
Proof.
  induction d as [|[k' v'] d IH]; simpl.
  - by rewrite decide_True.
  - destruct (decide (k' = k)) as [->|Hne]; simpl.
    + by rewrite decide_True.
    + by rewrite decide_False.
Qed.

Lemma get_set_ne k k' v d : k <> k' -> OD.get k' (OD.set k v d) = OD.get k' d.
Proof.
  intros Hne. induction d as [|[k0 v0] d IH]; simpl.
  - by rewrite decide_False.
  - destruct (decide (k0 = k)) as [->|Hk0]; simpl.
    + by rewrite !decide_False.
    + by rewrite IH.
Qed.

Lemma get_None_keys k d : OD.get k d = None <-> k ∉ OD.keys d.
Proof.
  induction d as [|[k0 v0] d IH]; simpl.
  - split; [intros _; apply not_elem_of_nil | done].
  - rewrite not_elem_of_cons. destruct (decide (k0 = k)) as [->|Hk0].
    + split; [done | intros [? _]; done].
    + rewrite IH. split; [intros ?; split; [congruence | done] | by intros [_ ?]].
Qed.

Lemma get_Some_keys k v d : OD.get k d = Some v -> k ∈ OD.keys d.
Proof.
  intros Hget. destruct (decide (k ∈ OD.keys d)) as [|Hn]; [done|].
  apply get_None_keys in Hn. congruence.
Qed.

Lemma get_Some_elem k v d : OD.get k d = Some v -> (k, v) ∈ d.
Proof.
  induction d as [|[k0 v0] d IH]; simpl; [done|].
  destruct (decide (k0 = k)) as [->|Hk0].
  - intros [= ->]. apply list_elem_of_here.
  - intros Hget. apply list_elem_of_further. by apply IH.
Qed.

Lemma keys_set_present k v d :
  k ∈ OD.keys d -> OD.keys (OD.set k v d) = OD.keys d.
Proof.
  induction d as [|[k0 v0] d IH]; simpl.
  - intros Hin. by apply elem_of_nil in Hin.
  - intros Hin. destruct (decide (k0 = k)) as [->|Hk0]; simpl; [done|].
    apply elem_of_cons in Hin as [->|Hin]; [done|].
    f_equal. by apply IH.
Qed.

Lemma keys_set_absent k v d :
  k ∉ OD.keys d -> OD.keys (OD.set k v d) = OD.keys d ++ [k].
Proof.
  induction d as [|[k0 v0] d IH]; simpl; [done|].
  rewrite not_elem_of_cons. intros [Hne Hnotin].
  rewrite decide_False by done. simpl. f_equal. by apply IH.
Qed.

Lemma set_absent k v d : k ∉ OD.keys d -> OD.set k v d = d ++ [(k, v)].
Proof.
  induction d as [|[k0 v0] d IH]; simpl; [done|].
  rewrite not_elem_of_cons. intros [Hne Hnotin].
  rewrite decide_False by done. f_equal. by apply IH.
Qed.

Lemma wf_set k v d : OD.wf d -> OD.wf (OD.set k v d).
Proof.
  unfold OD.wf. intros Hwf. destruct (decide (k ∈ OD.keys d)) as [Hin|Hnotin].
  - by rewrite keys_set_present.
  - rewrite keys_set_absent by done.
    apply NoDup_app. split; [done|]. split.
    + intros x Hx Hx'. apply list_elem_of_singleton in Hx'. by subst.
    + apply NoDup_singleton.
Qed.

Lemma set_not_nil k v d : OD.set k v d <> [].
Proof. destruct d as [|[k0 v0] d]; simpl; [done|]. by destruct (decide (k0 = k)). Qed.

Lemma contains_true k d : OD.contains k d = true <-> k ∈ OD.keys d.
Proof.
  unfold OD.contains. destruct (OD.get k d) as [v|] eqn:Hget.
  - split; [intros _; by eapply get_Some_keys | done].
  - split; [done | intros Hin; by apply get_None_keys in Hget].
Qed.

Lemma set_set k v v' d :
  OD.set k v (OD.set k v' d) = OD.set k v d.
Proof.
  induction d as [|[k0 v0] d IH]; simpl.
  - by rewrite decide_True.
  - destruct (decide (k0 = k)) as [->|Hne]; simpl.
    + by rewrite decide_True.
    + rewrite decide_False by done. by rewrite IH.
Qed.

Lemma filter_all (P : K -> Prop) `{forall x, Decision (P x)} (l : list K) :
  (forall x, P x) -> filter P l = l.
Proof.
  intros HP. induction l as [|x l IH]; [done|].
  rewrite filter_cons_True by done. by rewrite IH.
Qed.

Lemma Forall_set (P : K * V -> Prop) k v d :
  Forall P d -> (forall k', P (k', v)) -> Forall P (OD.set k v d).
Proof.
  intros Hd Hv. induction Hd as [|[k0 v0] d HP Hd IH]; simpl.
  - by repeat constructor.
  - destruct (decide (k0 = k)); constructor; auto.
Qed.

End DictFacts.

(** ** Facts about the parser *)

Section ParserFacts.
Context {Scalar : Type}.
Variable from_proto_id : string -> option GridQubit.
Implicit Types (results r : metric_dict Scalar) (m : @metric Scalar)
  (b : bucket Scalar) (name : pyval).

Lemma getitem_spec name r :
  DD.getitem name r
  = (bucket_of name r,
     if decide (name ∈ OD.keys r) then r else OD.set name [] r).
Proof.
  unfold DD.getitem, bucket_of.
  destruct (OD.get name r) as [b|] eqn:Hget; simpl.
  - rewrite decide_True; [done|]. by eapply get_Some_keys.
  - rewrite decide_False; [done|]. by apply get_None_keys.
Qed.

Lemma setitem2_spec name key fv r :
  setitem2 name key fv r = OD.set name (OD.set key fv (bucket_of name r)) r.
Proof.
  unfold setitem2. rewrite getitem_spec.
  destruct (decide _); [done|]. apply set_set.
Qed.

Lemma bucket_of_setitem2_eq name key fv r :
  OD.get name (setitem2 name key fv r)
  = Some (OD.set key fv (bucket_of name r)).
Proof. rewrite setitem2_spec. apply get_set_eq. Qed.

Lemma bucket_of_setitem2_ne name name' key fv r :
  name <> name' ->
  OD.get name' (setitem2 name key fv r) = OD.get name' r.
Proof. intros Hne. rewrite setitem2_spec. by apply get_set_ne. Qed.

Lemma keys_setitem2 name key fv r :
  OD.keys (setitem2 name key fv r)
  = if decide (name ∈ OD.keys r) then OD.keys r else OD.keys r ++ [name].
Proof.
  rewrite setitem2_spec. destruct (decide _).
  - by apply keys_set_present.
  - by apply keys_set_absent.
Qed.

(** What one record does when it raises nothing. *)
Lemma record_metric_Ok r m r' :
  record_metric from_proto_id r m = Ok r' ->
  exists key, key_of from_proto_id m = Ok key
    /\ r' = setitem2 (name m) key (flat_values m) r.
Proof.
  unfold record_metric, key_of. destruct (targets m) as [ts|].
  - destruct (qubits_of _ _) as [qs|e]; simpl; [|done].
    intros [= <-]. by exists qs.
  - rewrite getitem_spec. destruct (OD.len _ =? 0)%nat; [|done].
    intros [= <-]. exists []. split; [done|].
    rewrite !setitem2_spec. destruct (decide _) as [|Hn]; [done|].
    rewrite set_set. unfold bucket_of. rewrite get_set_eq. simpl.
    apply get_None_keys in Hn. by rewrite Hn.
Qed.

Lemma for_metrics_app r ms1 ms2 :
  for_metrics from_proto_id r (ms1 ++ ms2)
  = r' ← for_metrics from_proto_id r ms1; for_metrics from_proto_id r' ms2.
Proof.
  revert r. induction ms1 as [|m ms1 IH]; intros r; simpl; [done|].
  destruct (record_metric _ r m) as [r1|e]; simpl; [apply IH | done].
Qed.

End ParserFacts.

Section ParserInvariants.
Context {Scalar : Type}.
Variable from_proto_id : string -> option GridQubit.
Implicit Types (results r : metric_dict Scalar) (m : @metric Scalar)
  (b : bucket Scalar) (name : pyval).

Lemma dict_ok_nil : dict_ok (Scalar := Scalar) [].
Proof. split; [apply NoDup_nil_2 | constructor]. Qed.

Lemma dict_ok_bucket name r b :
  dict_ok r -> OD.get name r = Some b -> OD.wf b /\ b <> [].
Proof.
  intros [_ Hall] Hget. apply get_Some_elem in Hget.
  rewrite Forall_forall in Hall. exact (Hall _ Hget).
Qed.

Lemma wf_bucket_of name r : dict_ok r -> OD.wf (bucket_of name r).
Proof.
  intros Hok. unfold bucket_of.
  destruct (OD.get name r) as [b|] eqn:Hget; simpl.
  - by destruct (dict_ok_bucket _ _ _ Hok Hget).
  - apply NoDup_nil_2.
Qed.

Lemma dict_ok_setitem2 name key fv r :
  dict_ok r -> dict_ok (setitem2 name key fv r).
Proof.
  intros Hok. rewrite setitem2_spec. split.
  - apply wf_set, Hok.
  - apply Forall_set; [apply Hok|]. intros k0. simpl. split.
    + by apply wf_set, wf_bucket_of.
    + apply set_not_nil.
Qed.

Lemma dict_ok_for_metrics r ms r' :
  dict_ok r -> for_metrics from_proto_id r ms = Ok r' -> dict_ok r'.
Proof.
  revert r. induction ms as [|m ms IH]; intros r Hok; simpl.
  - by intros [= <-].
  - destruct (record_metric _ r m) as [r1|e] eqn:Hm; simpl; [|done].
    apply record_metric_Ok in Hm as (key & _ & ->).
    apply IH. by apply dict_ok_setitem2.
Qed.

(** The names of the dictionary after a run of the loop: those it had,
    followed by the new ones in the order of their first record. *)
Lemma keys_for_metrics r ms r' :
  for_metrics from_proto_id r ms = Ok r' ->
  OD.keys r'
  = OD.keys r
    ++ filter (fun n => n ∉ OD.keys r) (first_occurrences (name <$> ms)).
Proof.
  revert r. induction ms as [|m ms IH]; intros r; simpl.
  - intros [= <-]. by rewrite app_nil_r.
  - destruct (record_metric _ r m) as [r1|e] eqn:Hm; simpl; [|done].
    apply record_metric_Ok in Hm as (key & _ & ->).
    intros Hrest. rewrite (IH _ Hrest), keys_setitem2.
    destruct (decide (name m ∈ OD.keys r)) as [Hin|Hnotin].
    + rewrite filter_cons_False by (intros Hn; by apply Hn).
      rewrite list_filter_filter. f_equal. apply list_filter_iff.
      intros n. split; [|by intros [? _]].
      intros Hn. split; [done|]. by intros ->.
    + rewrite filter_cons_True by done.
      rewrite list_filter_filter, <- app_assoc. simpl. do 2 f_equal.
      apply list_filter_iff. intros n.
      rewrite elem_of_app, list_elem_of_singleton. tauto.
Qed.

Lemma bucket_of_setitem2 name n key fv r :
  bucket_of n (setitem2 name key fv r)
  = if decide (name = n) then OD.set key fv (bucket_of n r)
    else bucket_of n r.
Proof.
  unfold bucket_of at 1. destruct (decide (name = n)) as [<-|Hne].
  - by rewrite bucket_of_setitem2_eq.
  - by rewrite bucket_of_setitem2_ne.
Qed.

Lemma keys_bucket_record_metric r m r' n k :
  record_metric from_proto_id r m = Ok r' ->
  k ∈ OD.keys (bucket_of n r) -> k ∈ OD.keys (bucket_of n r').
Proof.
  intros (key & _ & ->)%record_metric_Ok Hk. rewrite bucket_of_setitem2.
  destruct (decide (name m = n)) as [_|_]; [|done].
  destruct (decide (key ∈ OD.keys (bucket_of n r))).
  - by rewrite keys_set_present.
  - rewrite keys_set_absent by done. apply elem_of_app. by left.
Qed.

(** An entry, once in a bucket, is there for the rest of the loop. *)
Lemma keys_bucket_for_metrics r ms r' n k :
  for_metrics from_proto_id r ms = Ok r' ->
  k ∈ OD.keys (bucket_of n r) -> k ∈ OD.keys (bucket_of n r').
Proof.
  revert r. induction ms as [|m ms IH]; intros r; simpl.
  - by intros [= <-].
  - destruct (record_metric _ r m) as [r1|e] eqn:Hm; simpl; [|done].
    intros Hrest Hk. apply (IH _ Hrest). by eapply keys_bucket_record_metric.
Qed.

(** Every record of a loop that ran through has its entry in its bucket. *)
Lemma entry_written r ms r' m :
  for_metrics from_proto_id r ms = Ok r' -> m ∈ ms ->
  exists k, key_of from_proto_id m = Ok k
    /\ k ∈ OD.keys (bucket_of (name m) r').
Proof.
  revert r. induction ms as [|m0 ms IH]; intros r; simpl.
  - intros _ Hin. by apply elem_of_nil in Hin.
  - destruct (record_metric _ r m0) as [r1|e] eqn:Hm0; simpl; [|done].
    intros Hrest [->|Hin]%elem_of_cons; [|by eapply IH].
    apply record_metric_Ok in Hm0 as (k & Hk & ->). exists k. split; [done|].
    apply (keys_bucket_for_metrics _ _ _ _ _ Hrest).
    rewrite bucket_of_setitem2, decide_True by done.
    eapply get_Some_keys, get_set_eq.
Qed.

(** A record leaves alone every entry but the one it writes. *)
Lemma entry_kept r ms r' n k :
  for_metrics from_proto_id r ms = Ok r' ->
  (forall m, m ∈ ms -> name m = n -> key_of from_proto_id m <> Ok k) ->
  OD.get k (bucket_of n r') = OD.get k (bucket_of n r).
Proof.
  revert r. induction ms as [|m ms IH]; intros r; simpl.
  - by intros [= <-].
  - destruct (record_metric _ r m) as [r1|e] eqn:Hm; simpl; [|done].
    intros Hrest Hother.
    rewrite (IH _ Hrest)
      by (intros m' Hm'; apply Hother; by apply list_elem_of_further).
    apply record_metric_Ok in Hm as (key & Hkey & ->).
    rewrite bucket_of_setitem2. destruct (decide (name m = n)) as [Hn|]; [|done].
    apply get_set_ne. intros ->.
    by apply (Hother m (list_elem_of_here _ _)).
Qed.

(** A record without targets on a name that has entries: the assertion. *)
Lemma record_metric_no_targets_raises r m :
  targets m = None ->
  bucket_of (name m) r <> [] ->
  record_metric from_proto_id r m = Raise (AssertionError_no_targets (name m)).
Proof.
  intros Ht Hne. unfold record_metric. rewrite Ht, getitem_spec.
  by destruct (bucket_of (name m) r).
Qed.

End ParserInvariants.

(** ** Facts about [first_occurrences] *)

Section FirstOccurrences.
Context {A : Type} `{EqDecision A}.
Implicit Types (l : list A) (x : A).

Lemma elem_of_first_occurrences l x : x ∈ first_occurrences l <-> x ∈ l.
Proof.
  induction l as [|y l IH]; simpl; [done|].
  rewrite !elem_of_cons, list_elem_of_filter, IH.
  destruct (decide (x = y)); tauto.
Qed.

Lemma NoDup_first_occurrences l : NoDup (first_occurrences l).
Proof.
  induction l as [|y l IH]; simpl; [apply NoDup_nil_2|].
  apply NoDup_cons. split.
  - rewrite list_elem_of_filter. by intros [Hne _].
  - by apply NoDup_filter.
Qed.

(** Their number is the number of distinct elements. *)
Lemma length_first_occurrences l :
  length (first_occurrences l) = length (remove_dups l).
Proof.
  apply Permutation_length, NoDup_Permutation.
  - apply NoDup_first_occurrences.
  - apply NoDup_remove_dups.
  - intros x. by rewrite elem_of_first_occurrences, elem_of_remove_dups.
Qed.

End FirstOccurrences.

(** ** The queries of a constructed object *)

Section MethodFacts.
Context {Scalar : Type}.
Implicit Types (c self : @Calibration Scalar) (key : pyval).

(** The outcome of [self[key]], case by case, and the object it leaves. *)
Lemma getitem_outcome key self :
  __getitem__ key self
  = (match key with
     | PStr _ =>
         match OD.get key (_metric_dict self) with
         | Some b => Ok b
         | None => Raise (KeyError_not_in_calibration key)
         end
     | _ => Raise (TypeError_string_keys key)
     end, self).
Proof.
  destruct self as [t d]. destruct key as [s| |]; try reflexivity.
  unfold __getitem__, metric_dict_contains, metric_dict_getitem, mbind, M_bind,
    OD.contains, DD.getitem. simpl.
  destruct (OD.get (PStr s) d) as [b|] eqn:Hget; simpl; [|done].
  by rewrite Hget.
Qed.

Lemma run_call_frame (q : call) self : (run_call q self).2 = self.
Proof.
  destruct q as [key| |]; simpl; [|done..].
  by rewrite getitem_outcome.
Qed.

Lemma run_calls_outcomes (cs : list call) self :
  run_calls cs self = ((fun q => (run_call q self).1) <$> cs, self).
Proof.
  induction cs as [|q cs IH]; simpl; [done|].
  pose proof (run_call_frame q self) as Hq.
  destruct (run_call q self) as [o self']. simpl in Hq. subst self'.
  by rewrite IH.
Qed.

(** [heatmap] looks the metric up first and leaves the object as it was. *)
Lemma heatmap_outcome key self :
  heatmap key self
  = (metrics ← (__getitem__ key self).1;
     if negb (forallb (fun k => (length k =? 1)%nat) (OD.keys metrics)) then
       Raise AssertionError_single_qubits
     else if negb (forallb (fun k => (length k =? 1)%nat) (OD.values metrics))
     then Raise AssertionError_single_values
     else value_map ← value_map_of (OD.items metrics) [];
          Ok (mkHeatmap value_map),
     self).
Proof.
  unfold heatmap, mbind at 1, M_bind. rewrite getitem_outcome. simpl.
  destruct key as [s| |]; try reflexivity.
  destruct (OD.get (PStr s) (_metric_dict self)) as [b|]; [|reflexivity].
  simpl. by repeat destruct (forallb _ _).
Qed.

(** The two checks of [heatmap] pass exactly on buckets of single shape. *)
Lemma single_shape_checks (b : bucket Scalar) :
  single_shape b
  <-> forallb (fun k => (length k =? 1)%nat) (OD.keys b) = true
      /\ forallb (fun k => (length k =? 1)%nat) (OD.values b) = true.
Proof.
  unfold single_shape. induction b as [|[k v] b IH]; simpl.
  - split; [done | constructor].
  - rewrite Forall_cons, IH, !andb_true_iff, !Nat.eqb_eq. simpl. tauto.
Qed.

(** A bucket of single shape is a list of qubit-value pairs, each wrapped. *)
Lemma single_shape_wrap (b : bucket Scalar) :
  single_shape b ->
  exists pairs : OD.t GridQubit Scalar,
    b = (fun qv => ([qv.1], [qv.2])) <$> pairs.
Proof.
  induction 1 as [|[k v] b [Hk Hv] _ [pairs ->]]; [by exists []|].
  destruct k as [|q [|]]; try done. destruct v as [|x [|]]; try done.
  by exists ((q, x) :: pairs).
Qed.

Lemma value_map_of_wrap (pairs acc : OD.t GridQubit Scalar) :
  NoDup ((acc ++ pairs).*1) ->
  value_map_of ((fun qv => ([qv.1], [qv.2])) <$> pairs) acc
  = Ok (acc ++ pairs).
Proof.
  revert acc. induction pairs as [|[q x] pairs IH]; intros acc Hnd; simpl.
  - by rewrite app_nil_r.
  - rewrite set_absent.
    + rewrite IH; rewrite <- app_assoc; [done|exact Hnd].
    + rewrite fmap_app in Hnd. apply NoDup_app in Hnd as (_ & Hdisj & _).
      intros Hin. apply (Hdisj _ Hin). simpl. apply list_elem_of_here.
Qed.

End MethodFacts.

(** ** The constructor *)

Section ConstructorFacts.
Context {Scalar : Type}.
Variable from_proto_id : string -> option GridQubit.
Implicit Types (p : @payload Scalar) (c : @Calibration Scalar).

Lemma init_Ok p c :
  __init__ from_proto_id p = Ok c ->
  int (timestampMs p) = Ok (timestamp c)
  /\ for_metrics from_proto_id [] (metrics p) = Ok (_metric_dict c).
Proof.
  unfold __init__, _compute_metric_dict.
  destruct (int _) as [t|e]; simpl; [|done].
  destruct (for_metrics _ _ _) as [d|e]; simpl; [|done].
  by intros [= <-].
Qed.

Lemma init_dict_ok p c :
  __init__ from_proto_id p = Ok c -> dict_ok (_metric_dict c).
Proof.
  intros [_ Hd]%init_Ok. eapply dict_ok_for_metrics; [|exact Hd].
  apply dict_ok_nil.
Qed.

End ConstructorFacts.

(** ** Target strings and tagged values *)

Lemma substring_all (s : string) : String.substring 0 (String.length s) s = s.
Proof. induction s as [|a s IH]; simpl; [done | by rewrite IH]. Qed.

Lemma startswith_q_cons (a : ascii) (t : string) :
  String.prefix "q" (String a t) = if ascii_dec "q" a then true else false.
Proof.
  destruct t; cbn [String.prefix]; by destruct (ascii_dec "q" a).
Qed.

Lemma strip_q_stripped (t t' : string) : stripped t t' -> strip_q t = t'.
Proof.
  intros [rest|t0 Hnot]; unfold strip_q, startswith, slice_from.
  - rewrite startswith_q_cons. destruct (ascii_dec "q" "q"); [|done]. simpl.
    rewrite Nat.sub_0_r. apply substring_all.
  - destruct t0 as [|a t0]; [done|]. rewrite startswith_q_cons.
    destruct (ascii_dec "q" a) as [<-|]; [|done]. by destruct (Hnot t0).
Qed.

Section RecordFacts.
Context {Scalar : Type}.
Variable from_proto_id : string -> option GridQubit.

Lemma flat_values_one_key (m : @metric Scalar) (tagged : list (string * Scalar)) :
  values m = (fun tv => [tv]) <$> tagged -> flat_values m = tagged.*2.
Proof.
  unfold flat_values. intros ->.
  induction tagged as [|[tag x] tagged IH]; [done|].
  rewrite fmap_cons, bind_cons, IH. simpl. by rewrite decide_True.
Qed.

Lemma qubits_of_Forall2 (ts : list string) (qs : list GridQubit) :
  Forall2 (fun t q => from_proto_id t = Some q) ts qs ->
  qubits_of from_proto_id ts = Ok qs.
Proof. induction 1 as [|t q ts qs Ht _ IH]; simpl; [done|]. by rewrite Ht, IH. Qed.

End RecordFacts.

(** * The properties of the specification *)

Section QueryProperties.
Context {Scalar : Type}.
Variable from_proto_id : string -> option GridQubit.
Implicit Types (p : @payload Scalar) (c self : @Calibration Scalar)
  (m : @metric Scalar) (b : bucket Scalar) (key : pyval).

(** C3. For a name (a string, as the names of a payload are) with a bucket
    in a constructed Calibration: when every
    key of the bucket is a single qubit and every value list a single value,
    [heatmap] returns the map sending each such qubit to that value (the
    bucket is this map with every qubit and value wrapped); in every other
    shape, a bucket with the global (empty-tuple) key included, it raises
    an exception of kind [HeatmapShapeError]. Either way the object is left
    as it was, so later queries answer as before. *)
Theorem C3_heatmap_shape p c (s : string) b :
  __init__ from_proto_id p = Ok c ->
  OD.get (PStr s) (_metric_dict c) = Some b ->
  (single_shape b ->
     exists vm, heatmap (PStr s) c = (Ok (mkHeatmap vm), c)
       /\ b = (fun qv => ([qv.1], [qv.2])) <$> vm)
  /\ (~ single_shape b ->
     exists e, heatmap (PStr s) c = (Raise e, c)
       /\ kind_of e = HeatmapShapeError)
  /\ (OD.contains [] b = true -> ~ single_shape b)
  /\ (forall key, __getitem__ key (heatmap (PStr s) c).2 = __getitem__ key c).
Proof.
  intros Hinit Hget.
  pose proof (dict_ok_bucket _ _ _ (init_dict_ok _ _ _ Hinit) Hget) as [Hwf _].
  assert (Hh := heatmap_outcome (PStr s) c).
  rewrite getitem_outcome, Hget in Hh. simpl in Hh.
  repeat split.
  - intros Hsingle. destruct (single_shape_wrap _ Hsingle) as [vm ->].
    exists vm. split; [|done]. rewrite Hh.
    apply single_shape_checks in Hsingle as [-> ->]. simpl.
    unfold OD.items. rewrite value_map_of_wrap; [done|]. simpl.
    apply (NoDup_fmap_1 (fun q => [q])).
    unfold OD.wf, OD.keys in Hwf. rewrite <- list_fmap_compose in Hwf.
    rewrite <- list_fmap_compose. exact Hwf.
  - intros Hnot. rewrite single_shape_checks in Hnot. rewrite Hh.
    destruct (forallb _ (OD.keys b)); simpl; [|by eexists].
    destruct (forallb _ (OD.values b)); simpl; [|by eexists].
    by destruct Hnot.
  - intros Hglobal Hsingle. apply contains_true in Hglobal.
    apply list_elem_of_fmap in Hglobal as ([k v] & Hk & Hin).
    simpl in Hk. subst k. unfold single_shape in Hsingle.
    rewrite Forall_forall in Hsingle. by destruct (Hsingle _ Hin).
  - intros key. by rewrite Hh.
Qed.

(** C4. [get(key)] raises [InvalidKeyKind] for every key that is not a
    string, whether or not the dictionary holds it; for a string without a
    bucket it raises [MetricNotFound]; for a string with a bucket it returns
    that bucket. The object is the same afterwards. *)
Theorem C4_get_by_key self key :
  (isinstance_str key = false ->
     exists e, __getitem__ key self = (Raise e, self)
       /\ e = TypeError_string_keys key /\ kind_of e = InvalidKeyKind)
  /\ (isinstance_str key = true ->
      OD.get key (_metric_dict self) = None ->
      exists e, __getitem__ key self = (Raise e, self)
        /\ e = KeyError_not_in_calibration key /\ kind_of e = MetricNotFound)
  /\ (isinstance_str key = true ->
      forall b, OD.get key (_metric_dict self) = Some b ->
      __getitem__ key self = (Ok b, self)).
Proof.
  rewrite getitem_outcome. destruct key as [s| |]; simpl.
  - repeat split; [done| |].
    + intros _ ->. by eexists.
    + by intros _ b ->.
  - repeat split; [by eexists|done..].
  - repeat split; [by eexists|done..].
Qed.

(** C7. For a payload whose construction succeeds, iterating yields the
    distinct metric names of the records, each once, in the order of their
    first record; a second iteration yields the same again; and the size is
    the number of distinct names. *)
Theorem C7_iteration_and_size p c :
  __init__ from_proto_id p = Ok c ->
  let names := name <$> metrics p in
  __iter__ c = (Ok (first_occurrences names), c)
  /\ __iter__ (__iter__ c).2 = __iter__ c
  /\ NoDup (first_occurrences names)
  /\ (forall n, n ∈ first_occurrences names <-> n ∈ names)
  /\ __len__ c = (Ok (length (remove_dups names)), c).
Proof.
  intros [_ Hd]%init_Ok names.
  apply keys_for_metrics in Hd. simpl in Hd.
  rewrite filter_all in Hd by (intros n; apply not_elem_of_nil).
  repeat split.
  - unfold __iter__. by rewrite Hd.
  - apply NoDup_first_occurrences.
  - by apply elem_of_first_occurrences.
  - by apply elem_of_first_occurrences.
  - unfold __len__, OD.len. f_equal. f_equal.
    rewrite <- length_first_occurrences. fold names in Hd. rewrite <- Hd.
    unfold OD.keys. by rewrite length_fmap.
Qed.

(** C8. Whatever sequence of [get], iterate and size queries is made, with
    [get] calls that raise among them, the object is afterwards what it was
    (its dictionary, where no name was added, and its timestamp), and every
    query of the sequence gave what it gives on the untouched object, so two
    equal queries gave equal results. *)
Theorem C8_queries_do_not_mutate self (cs : list (@call)) :
  (run_calls cs self).2 = self
  /\ _metric_dict (run_calls cs self).2 = _metric_dict self
  /\ timestamp (run_calls cs self).2 = timestamp self
  /\ (forall key, OD.contains key (_metric_dict self) = false ->
        OD.contains key (_metric_dict (__getitem__ key self).2) = false)
  /\ (forall i q, cs !! i = Some q ->
        (run_calls cs self).1 !! i = Some (run_call q self).1)
  /\ (forall i j q, cs !! i = Some q -> cs !! j = Some q ->
        (run_calls cs self).1 !! i = (run_calls cs self).1 !! j).
Proof.
  rewrite run_calls_outcomes. simpl. repeat split.
  - intros key Hkey. by rewrite getitem_outcome.
  - intros i q Hi. by rewrite list_lookup_fmap, Hi.
  - intros i j q Hi Hj. by rewrite !list_lookup_fmap, Hi, Hj.
Qed.

(** C10. [heatmap] with a key that is not a string raises
    [InvalidKeyKind], and with a string that has no bucket it raises
    [MetricNotFound]: the errors of the lookup come through, and an
    exception of kind [HeatmapShapeError] is raised only when the lookup
    has returned a bucket. *)
Theorem C10_heatmap_lookup_errors self key :
  (isinstance_str key = false ->
     exists e, heatmap key self = (Raise e, self)
       /\ e = TypeError_string_keys key /\ kind_of e = InvalidKeyKind)
  /\ (isinstance_str key = true ->
      OD.get key (_metric_dict self) = None ->
      exists e, heatmap key self = (Raise e, self)
        /\ e = KeyError_not_in_calibration key /\ kind_of e = MetricNotFound)
  /\ (forall e, (heatmap key self).1 = Raise e ->
      kind_of e = HeatmapShapeError ->
      exists b, __getitem__ key self = (Ok b, self)).
Proof.
  rewrite heatmap_outcome, getitem_outcome. destruct key as [s| |]; simpl.
  - repeat split; [done| |].
    + intros _ ->. by eexists.
    + destruct (OD.get _ _) as [b|]; simpl; [by eexists|].
      by intros e [= <-].
  - repeat split; [by eexists|done|]. by intros e [= <-].
  - repeat split; [by eexists|done|]. by intros e [= <-].
Qed.

End QueryProperties.

Section ParserProperties.
Context {Scalar : Type}.
Variable from_proto_id : string -> option GridQubit.
Implicit Types (p : @payload Scalar) (c : @Calibration Scalar)
  (m : @metric Scalar) (r : metric_dict Scalar).

(** C2. When the loop reaches a record without [targets] while the bucket
    of its name already holds an entry -- in particular when an earlier
    record, without [targets] too, has the same name -- the construction
    raises an exception of kind [DuplicateGlobalMetric], and so returns no
    Calibration. *)
Theorem C2_duplicate_global p pre m post (t : Z) r :
  metrics p = pre ++ m :: post ->
  int (timestampMs p) = Ok t ->
  for_metrics from_proto_id [] pre = Ok r ->
  targets m = None ->
  bucket_of (name m) r <> []
  \/ (exists m1, m1 ∈ pre /\ targets m1 = None /\ name m1 = name m) ->
  exists e, __init__ from_proto_id p = Raise e
    /\ kind_of e = DuplicateGlobalMetric.
Proof.
  intros Hms Ht Hpre Hm Hbucket.
  assert (bucket_of (name m) r <> []) as Hne.
  { destruct Hbucket as [|(m1 & Hin & _ & <-)]; [done|].
    destruct (entry_written _ _ _ _ _ Hpre Hin) as (k & _ & Hk).
    intros Hnil. rewrite Hnil in Hk. by apply elem_of_nil in Hk. }
  exists (AssertionError_no_targets (name m)). split; [|done].
  unfold __init__, _compute_metric_dict.
  rewrite Ht, Hms, for_metrics_app, Hpre. simpl.
  by rewrite record_metric_no_targets_raises.
Qed.

(** C5. A record with [targets] whose values are one-key tagged scalars is
    stored by the parser under its name, under the key made of the parsed
    targets in their order, each target stripped of one leading ['q'] if it
    has one, as the list of its scalars in their order, without the tags:
    when the loop reaches the record it raises nothing and writes this
    entry, leaving the other entries of the bucket; if the record is the
    last one the construction succeeds with it; and every constructed
    Calibration holds this entry, unless a record further on writes it
    again. *)
Theorem C5_targeted_record_stored p pre m post (ts : list string)
    (tagged : list (string * Scalar)) (qs : list GridQubit) r :
  metrics p = pre ++ m :: post ->
  targets m = Some ts ->
  values m = (fun tv => [tv]) <$> tagged ->
  Forall2 (fun t q => exists t', stripped t t' /\ from_proto_id t' = Some q)
    ts qs ->
  for_metrics from_proto_id [] pre = Ok r ->
  exists r2 b,
    for_metrics from_proto_id [] (pre ++ [m]) = Ok r2
    /\ OD.get (name m) r2 = Some b
    /\ OD.get qs b = Some (tagged.*2)
    /\ (forall k, k <> qs -> OD.get k b = OD.get k (bucket_of (name m) r))
    /\ (forall t, post = [] -> int (timestampMs p) = Ok t ->
         __init__ from_proto_id p = Ok (mkCalibration t r2))
    /\ (forall c, __init__ from_proto_id p = Ok c ->
         (forall m', m' ∈ post -> name m' = name m ->
            key_of from_proto_id m' <> Ok qs) ->
         OD.get qs (bucket_of (name m) (_metric_dict c)) = Some (tagged.*2)).
Proof.
  intros Hms Hts Hvals Hparse Hpre.
  assert (Hm : record_metric from_proto_id r m
               = Ok (setitem2 (name m) qs (tagged.*2) r)).
  { unfold record_metric. rewrite Hts, (flat_values_one_key _ _ Hvals).
    rewrite (qubits_of_Forall2 _ _ qs); [done|].
    apply Forall2_fmap_l. eapply Forall2_impl; [exact Hparse|].
    intros t q (t' & Hstrip & Hq). simpl.
    by rewrite (strip_q_stripped _ _ Hstrip). }
  assert (Hrun : for_metrics from_proto_id [] (pre ++ [m])
                 = Ok (setitem2 (name m) qs (tagged.*2) r)).
  { rewrite for_metrics_app, Hpre. simpl. by rewrite Hm. }
  exists (setitem2 (name m) qs (tagged.*2) r),
    (OD.set qs (tagged.*2) (bucket_of (name m) r)).
  split; [done|]. split; [apply bucket_of_setitem2_eq|].
  split; [apply get_set_eq|]. split; [|split].
  - intros k Hk. by apply get_set_ne.
  - intros t Hpost Ht. unfold __init__, _compute_metric_dict.
    by rewrite Ht, Hms, Hpost, Hrun.
  - intros c [_ Hc]%init_Ok Hpost.
    rewrite Hms in Hc.
    replace (pre ++ m :: post) with ((pre ++ [m]) ++ post) in Hc
      by (by rewrite <- app_assoc).
    rewrite for_metrics_app, Hrun in Hc. simpl in Hc.
    rewrite (entry_kept _ _ _ _ _ _ Hc Hpost).
    rewrite bucket_of_setitem2, decide_True by done. apply get_set_eq.
Qed.

(** C9. When a record with [targets] follows another of the same name whose
    targets parse to the same tuple, it raises nothing: it replaces the
    value list of that entry by its own flattened list, and adds no entry
    and no name. If it is the last record the construction succeeds; and in
    any constructed Calibration the entry holds the later record's list,
    unless a record further on writes it once more. *)
Theorem C9_later_record_overwrites p pre m1 mid m2 post
    (ts1 ts2 : list string) (qs : list GridQubit) r :
  metrics p = pre ++ m1 :: mid ++ m2 :: post ->
  name m1 = name m2 ->
  targets m1 = Some ts1 -> targets m2 = Some ts2 ->
  qubits_of from_proto_id (strip_q <$> ts1) = Ok qs ->
  qubits_of from_proto_id (strip_q <$> ts2) = Ok qs ->
  for_metrics from_proto_id [] (pre ++ m1 :: mid) = Ok r ->
  exists r2,
    for_metrics from_proto_id [] (pre ++ m1 :: mid ++ [m2]) = Ok r2
    /\ OD.get qs (bucket_of (name m2) r2) = Some (flat_values m2)
    /\ OD.keys (bucket_of (name m2) r2) = OD.keys (bucket_of (name m2) r)
    /\ OD.keys r2 = OD.keys r
    /\ (forall t, post = [] -> int (timestampMs p) = Ok t ->
         __init__ from_proto_id p = Ok (mkCalibration t r2))
    /\ (forall c, __init__ from_proto_id p = Ok c ->
         (forall m, m ∈ post -> name m = name m2 ->
            key_of from_proto_id m <> Ok qs) ->
         OD.get qs (bucket_of (name m2) (_metric_dict c))
         = Some (flat_values m2)).
Proof.
  intros Hms Hname Ht1 Ht2 Hq1 Hq2 Hr.
  assert (Hin : m1 ∈ pre ++ m1 :: mid)
    by (apply elem_of_app; right; apply list_elem_of_here).
  destruct (entry_written _ _ _ _ _ Hr Hin) as (k & Hk & Hpresent).
  unfold key_of in Hk. rewrite Ht1, Hq1 in Hk. injection Hk as <-.
  rewrite Hname in Hpresent.
  assert (Hm2 : record_metric from_proto_id r m2
                = Ok (setitem2 (name m2) qs (flat_values m2) r)).
  { unfold record_metric. by rewrite Ht2, Hq2. }
  assert (Hrun : for_metrics from_proto_id [] (pre ++ m1 :: mid ++ [m2])
                 = Ok (setitem2 (name m2) qs (flat_values m2) r)).
  { replace (pre ++ m1 :: mid ++ [m2]) with ((pre ++ m1 :: mid) ++ [m2])
      by (by rewrite <- app_assoc).
    rewrite for_metrics_app, Hr. simpl. by rewrite Hm2. }
  exists (setitem2 (name m2) qs (flat_values m2) r).
  split; [done|]. split; [|split; [|split; [|split]]].
  - rewrite bucket_of_setitem2, decide_True by done. apply get_set_eq.
  - rewrite bucket_of_setitem2, decide_True by done.
    by apply keys_set_present.
  - rewrite keys_setitem2, decide_True; [done|].
    destruct (OD.get (name m2) r) as [b|] eqn:Hb; [by eapply get_Some_keys|].
    unfold bucket_of in Hpresent. rewrite Hb in Hpresent.
    by apply elem_of_nil in Hpresent.
  - intros t -> Ht. unfold __init__, _compute_metric_dict.
    by rewrite Ht, Hms, Hrun.
  - intros c [_ Hc]%init_Ok Hpost.
    rewrite Hms in Hc.
    replace (pre ++ m1 :: mid ++ m2 :: post)
      with ((pre ++ m1 :: mid ++ [m2]) ++ post) in Hc
      by (rewrite <- app_assoc; simpl; by rewrite <- app_assoc).
    rewrite for_metrics_app, Hrun in Hc. simpl in Hc.
    rewrite (entry_kept _ _ _ _ _ _ Hc Hpost).
    rewrite bucket_of_setitem2, decide_True by done. apply get_set_eq.
Qed.

End ParserProperties.

(** * Concrete runs *)

(** C6. Constructing from [{timestampMs: "1000", metrics: [{name: "t1",
    values: [{"double_val": 321}], targets: ["q0_0"]}]}], with a parser
    that reads ["0_0"] as [Qubit(0,0)], gives the timestamp [1000] (the
    string is converted), [get("t1") = {(Qubit(0,0),): [321]}] and
    [heatmap("t1") = {Qubit(0,0): 321}]. *)
Theorem C6_round_trip (from_proto_id : string -> option GridQubit) :
  from_proto_id "0_0" = Some (mkGridQubit 0 0) ->
  let p := mkPayload (PStr "1000")
             [mkMetric (PStr "t1") [[("double_val", 321)]] (Some ["q0_0"])] in
  exists c,
    __init__ from_proto_id p = Ok c
    /\ timestamp c = 1000
    /\ (__getitem__ (PStr "t1") c).1 = Ok [([mkGridQubit 0 0], [321])]
    /\ (heatmap (PStr "t1") c).1 = Ok (mkHeatmap [(mkGridQubit 0 0, 321)]).
Proof.
  intros Hparse p.
  exists (mkCalibration 1000 [(PStr "t1", [([mkGridQubit 0 0], [321])])]).
  split; [|by repeat split].
  unfold __init__, _compute_metric_dict, p. simpl.
  unfold record_metric. simpl.
  change (strip_q "q0_0") with "0_0". by rewrite Hparse.
Qed.

Lemma C6_round_trip_witness :
  exists c,
    __init__ grid_from_proto_id
      (mkPayload (PStr "1000")
         [mkMetric (PStr "t1") [[("double_val", 321)]] (Some ["q0_0"])])
    = Ok c
    /\ timestamp c = 1000
    /\ (__getitem__ (PStr "t1") c).1 = Ok [([mkGridQubit 0 0], [321])]
    /\ (heatmap (PStr "t1") c).1 = Ok (mkHeatmap [(mkGridQubit 0 0, 321)]).
Proof. apply (C6_round_trip grid_from_proto_id). reflexivity. Defined.

(** C1 fails on the code: a record without [targets] followed by a record
    of the same name with targets is accepted, and the bucket then holds the
    global (empty-tuple) key next to a targeted one. *)
Theorem C1_global_then_targeted_accepted :
  let p := mkPayload (PStr "1000")
             [mkMetric (PStr "t1") [[("double_val", 1)]] None;
              mkMetric (PStr "t1") [[("double_val", 2)]] (Some ["q0_0"])] in
  let b := [([], [1]); ([mkGridQubit 0 0], [2])] in
  __init__ grid_from_proto_id p = Ok (mkCalibration 1000 [(PStr "t1", b)])
  /\ OD.contains [] b = true
  /\ OD.contains [mkGridQubit 0 0] b = true.
Proof. repeat split. Qed.

(** [int()] skips no separator character such as 0x1c: a timestamp that
    begins with one is refused. *)
Example int_refuses_separator :
  int (PStr (String (ascii_of_nat 28) "7"))
  = Raise (ValueError_int (String (ascii_of_nat 28) "7"))
  /\ int (PStr (String (ascii_of_nat 9) "7 ")) = Ok 7.
Proof. split; reflexivity. Qed.

(** The same two records in the other order are refused. *)
Example targeted_then_global_refused :
  __init__ grid_from_proto_id
    (mkPayload (PStr "1000")
       [mkMetric (PStr "t1") [[("double_val", 2)]] (Some ["q0_0"]);
        mkMetric (PStr "t1") [[("double_val", 1)]] None])
  = Raise (AssertionError_no_targets (PStr "t1")).
Proof. reflexivity. Qed.

(** A record with an empty list of targets is stored under the empty tuple
    as well, and unchecked. *)
Example targeted_then_empty_targets_accepted :
  __init__ grid_from_proto_id
    (mkPayload (PStr "1000")
       [mkMetric (PStr "t1") [[("double_val", 2)]] (Some ["q0_0"]);
        mkMetric (PStr "t1") [[("double_val", 1)]] (Some [])])
  = Ok (mkCalibration 1000
          [(PStr "t1", [([mkGridQubit 0 0], [2]); ([], [1])])]).
Proof. reflexivity. Qed.

Lemma C2_duplicate_global_witness :
  exists e,
    __init__ grid_from_proto_id
      (mkPayload (PStr "1000")
         [mkMetric (PStr "t1") [[("double_val", 1)]] None;
          mkMetric (PStr "t1") [[("double_val", 2)]] None])
    = Raise e
    /\ kind_of e = DuplicateGlobalMetric.
Proof.
  apply (C2_duplicate_global grid_from_proto_id _
           [mkMetric (PStr "t1") [[("double_val", 1)]] None]
           (mkMetric (PStr "t1") [[("double_val", 2)]] None) []
           1000 [(PStr "t1", [([], [1])])]);
    [reflexivity..|].
  left. discriminate.
Defined.

Lemma C3_heatmap_shape_witness :
  let c := mkCalibration 1000 [(PStr "t1", [([mkGridQubit 0 0], [321])])] in
  exists vm,
    heatmap (PStr "t1") c = (Ok (mkHeatmap vm), c)
    /\ [([mkGridQubit 0 0], [321])] = (fun qv => ([qv.1], [qv.2])) <$> vm.
Proof.
  apply (C3_heatmap_shape grid_from_proto_id
           (mkPayload (PStr "1000")
              [mkMetric (PStr "t1") [[("double_val", 321)]] (Some ["q0_0"])])
           (mkCalibration 1000 [(PStr "t1", [([mkGridQubit 0 0], [321])])])
           "t1" [([mkGridQubit 0 0], [321])]);
    [reflexivity..|].
  repeat constructor.
Defined.

Lemma C5_targeted_record_stored_witness :
  exists r2 b,
    for_metrics grid_from_proto_id []
      [mkMetric (PStr "xeb") [[("double_val", 1)]] None;
       mkMetric (PStr "t1") [[("double_val", 321)]; [("int_val", 7)]]
         (Some ["q0_0"; "1_2"])]
    = Ok r2
    /\ OD.get (PStr "t1") r2 = Some b
    /\ OD.get [mkGridQubit 0 0; mkGridQubit 1 2] b = Some [321; 7]
    /\ OD.get [mkGridQubit 0 0; mkGridQubit 1 2]
         (bucket_of (PStr "t1")
            (_metric_dict
               (mkCalibration 1000
                  [(PStr "xeb", [([], [1])]);
                   (PStr "t1",
                    [([mkGridQubit 0 0; mkGridQubit 1 2], [321; 7]);
                     ([mkGridQubit 3 4], [5])])])))
       = Some [321; 7].
Proof.
  destruct (C5_targeted_record_stored grid_from_proto_id
           (mkPayload (PStr "1000")
              [mkMetric (PStr "xeb") [[("double_val", 1)]] None;
               mkMetric (PStr "t1") [[("double_val", 321)]; [("int_val", 7)]]
                 (Some ["q0_0"; "1_2"]);
               mkMetric (PStr "t1") [[("double_val", 5)]] (Some ["q3_4"])])
           [mkMetric (PStr "xeb") [[("double_val", 1)]] None]
           (mkMetric (PStr "t1") [[("double_val", 321)]; [("int_val", 7)]]
              (Some ["q0_0"; "1_2"]))
           [mkMetric (PStr "t1") [[("double_val", 5)]] (Some ["q3_4"])]
           ["q0_0"; "1_2"] [("double_val", 321); ("int_val", 7)]
           [mkGridQubit 0 0; mkGridQubit 1 2]
           [(PStr "xeb", [([], [1])])]
           eq_refl eq_refl eq_refl)
    as (r2 & b & Hrun & Hb & Hentry & _ & _ & Hfinal).
  - repeat constructor.
    + exists "0_0". split; [apply stripped_q | reflexivity].
    + exists "1_2". split; [apply stripped_none; discriminate | reflexivity].
  - reflexivity.
  - exists r2, b. split; [exact Hrun|]. split; [exact Hb|].
    split; [exact Hentry|]. apply Hfinal; [reflexivity|].
    intros m' Hin _. apply list_elem_of_singleton in Hin. subst m'.
    discriminate.
Defined.

Lemma C7_iteration_and_size_witness :
  let c := mkCalibration 1000
             [(PStr "t1", [([mkGridQubit 0 0], [1]); ([mkGridQubit 0 1], [3])]);
              (PStr "xeb", [([], [2])])] in
  __iter__ c = (Ok [PStr "t1"; PStr "xeb"], c)
  /\ __len__ c = (Ok 2%nat, c).
Proof.
  pose proof (C7_iteration_and_size grid_from_proto_id
           (mkPayload (PStr "1000")
              [mkMetric (PStr "t1") [[("double_val", 1)]] (Some ["q0_0"]);
               mkMetric (PStr "xeb") [[("double_val", 2)]] None;
               mkMetric (PStr "t1") [[("double_val", 3)]] (Some ["q0_1"])])
           (mkCalibration 1000
              [(PStr "t1", [([mkGridQubit 0 0], [1]); ([mkGridQubit 0 1], [3])]);
               (PStr "xeb", [([], [2])])])
           eq_refl) as (Hiter & _ & _ & _ & Hlen).
  split; [exact Hiter | exact Hlen].
Defined.

Lemma C9_later_record_overwrites_witness :
  exists r2,
    for_metrics grid_from_proto_id []
      [mkMetric (PStr "t1") [[("double_val", 1)]] (Some ["q0_0"]);
       mkMetric (PStr "t1") [[("double_val", 2)]] (Some ["0_0"])]
    = Ok r2
    /\ OD.get [mkGridQubit 0 0] (bucket_of (PStr "t1") r2) = Some [2]
    /\ OD.keys (bucket_of (PStr "t1") r2) = [[mkGridQubit 0 0]]
    /\ OD.keys r2 = [PStr "t1"].
Proof.
  destruct (C9_later_record_overwrites grid_from_proto_id
           (mkPayload (PStr "1000")
              [mkMetric (PStr "t1") [[("double_val", 1)]] (Some ["q0_0"]);
               mkMetric (PStr "t1") [[("double_val", 2)]] (Some ["0_0"])])
           [] (mkMetric (PStr "t1") [[("double_val", 1)]] (Some ["q0_0"]))
           [] (mkMetric (PStr "t1") [[("double_val", 2)]] (Some ["0_0"]))
           [] ["q0_0"] ["0_0"] [mkGridQubit 0 0]
           [(PStr "t1", [([mkGridQubit 0 0], [1])])]
           eq_refl eq_refl eq_refl eq_refl eq_refl eq_refl eq_refl)
    as (r2 & Hrun & Hget & Hkeys & Hnames & _).
  exists r2. repeat split; assumption.
Defined.

(** * Further properties of the parser *)

Section MoreDictFacts.
Context {K V : Type} `{EqDecision K}.
Implicit Types (d : OD.t K V) (k : K) (v : V) (l : list K).

Lemma keys_set k v d :
  OD.keys (OD.set k v d)
  = if decide (k ∈ OD.keys d) then OD.keys d else OD.keys d ++ [k].
Proof.
  destruct (decide _); [by apply keys_set_present | by apply keys_set_absent].
Qed.

(** Adding one more element to a list of distinct elements seen so far. *)
Lemma first_occurrences_seen l k (ks : list K) :
  l ++ filter (fun x => x ∉ l) (first_occurrences (k :: ks))
  = (if decide (k ∈ l) then l else l ++ [k])
    ++ filter (fun x => x ∉ (if decide (k ∈ l) then l else l ++ [k]))
         (first_occurrences ks).
Proof.
  simpl. destruct (decide (k ∈ l)) as [Hin|Hnotin].
  - rewrite filter_cons_False by (intros Hn; by apply Hn).
    rewrite list_filter_filter. f_equal. apply list_filter_iff.
    intros x. split; [by intros [? _]|].
    intros Hx. split; [done|]. by intros ->.
  - rewrite filter_cons_True by done.
    rewrite list_filter_filter, <- app_assoc. simpl. do 2 f_equal.
    apply list_filter_iff. intros x.
    rewrite elem_of_app, list_elem_of_singleton. tauto.
Qed.

End MoreDictFacts.

Section ParserContents.
Context {Scalar : Type}.
Variable from_proto_id : string -> option GridQubit.
Implicit Types (results r : metric_dict Scalar) (m : @metric Scalar)
  (b : bucket Scalar) (n : pyval) (k : list GridQubit)
  (p : @payload Scalar) (c : @Calibration Scalar).

(** A record goes through when its key can be computed and, if it has no
    targets, the bucket of its name is empty. *)
Lemma record_metric_succeeds r m k :
  key_of from_proto_id m = Ok k ->
  (targets m = None -> bucket_of (name m) r = []) ->
  record_metric from_proto_id r m = Ok (setitem2 (name m) k (flat_values m) r).
Proof.
  unfold key_of, record_metric. destruct (targets m) as [ts|].
  - intros -> _. done.
  - intros [= <-] Hempty. rewrite getitem_spec, Hempty by done. simpl.
    rewrite !setitem2_spec. destruct (decide _) as [|Hn]; [done|].
    rewrite set_set. unfold bucket_of. rewrite get_set_eq. simpl.
    apply get_None_keys in Hn. by rewrite Hn.
Qed.

Lemma record_metric_Ok_no_targets r m r' :
  record_metric from_proto_id r m = Ok r' ->
  targets m = None -> bucket_of (name m) r = [].
Proof.
  unfold record_metric. intros Hm Ht. rewrite Ht, getitem_spec in Hm.
  by destruct (bucket_of (name m) r).
Qed.

Lemma bucket_of_nil_keys r n :
  dict_ok r -> bucket_of n r = [] <-> n ∉ OD.keys r.
Proof.
  intros Hok. unfold bucket_of.
  destruct (OD.get n r) as [b|] eqn:Hget; simpl.
  - destruct (dict_ok_bucket _ _ _ Hok Hget) as [_ Hne].
    split; [done|]. intros Hn. apply get_None_keys in Hn. congruence.
  - split; [|done]. intros _. by apply get_None_keys.
Qed.

(** The value of an entry after a run of the loop: that of the last record
    that wrote it, or what it was. *)
Lemma entry_for_metrics r ms r' n k :
  for_metrics from_proto_id r ms = Ok r' ->
  OD.get k (bucket_of n r')
  = match last (writers from_proto_id n k ms) with
    | Some m => Some (flat_values m)
    | None => OD.get k (bucket_of n r)
    end.
Proof.
  revert r. induction ms as [|m ms IH]; intros r; simpl.
  - by intros [= <-].
  - destruct (record_metric _ r m) as [r1|e] eqn:Hm; simpl; [|done].
    intros Hrest. rewrite (IH _ Hrest). unfold writers.
    apply record_metric_Ok in Hm as (key & Hkey & ->).
    rewrite filter_cons. destruct (decide _) as [[Hn Hk]|Hnot].
    + rewrite last_cons. destruct (last _); [done|].
      rewrite bucket_of_setitem2, decide_True by done.
      rewrite Hkey in Hk. injection Hk as ->. by rewrite get_set_eq.
    + destruct (last _); [done|]. rewrite bucket_of_setitem2.
      destruct (decide (name m = n)) as [Hn|]; [|done].
      apply get_set_ne. intros ->. by apply Hnot.
Qed.

(** The keys of a bucket after a run of the loop: those it had, then the
    new ones in the order in which they were first written. *)
Lemma bucket_keys_for_metrics r ms r' n :
  for_metrics from_proto_id r ms = Ok r' ->
  OD.keys (bucket_of n r')
  = OD.keys (bucket_of n r)
    ++ filter (fun k => k ∉ OD.keys (bucket_of n r))
         (first_occurrences (keys_written from_proto_id n ms)).
Proof.
  revert r. induction ms as [|m ms IH]; intros r; simpl.
  - intros [= <-]. by rewrite app_nil_r.
  - destruct (record_metric _ r m) as [r1|e] eqn:Hm; simpl; [|done].
    intros Hrest. rewrite (IH _ Hrest).
    apply record_metric_Ok in Hm as (key & Hkey & ->).
    rewrite bucket_of_setitem2. unfold keys_written. simpl.
    destruct (decide (name m = n)) as [Hn|Hn]; [|done].
    rewrite Hkey, keys_set. simpl.
    symmetry. apply (first_occurrences_seen (OD.keys (bucket_of n r)) key).
Qed.

(** A bucket is left alone by the records of other names. *)
Lemma bucket_kept r ms r' n :
  for_metrics from_proto_id r ms = Ok r' ->
  (forall m, m ∈ ms -> name m <> n) ->
  bucket_of n r' = bucket_of n r.
Proof.
  revert r. induction ms as [|m ms IH]; intros r; simpl.
  - by intros [= <-].
  - destruct (record_metric _ r m) as [r1|e] eqn:Hm; simpl; [|done].
    intros Hrest Hother.
    rewrite (IH _ Hrest)
      by (intros m' Hm'; apply Hother; by apply list_elem_of_further).
    apply record_metric_Ok in Hm as (key & _ & ->).
    rewrite bucket_of_setitem2, decide_False; [done|].
    apply Hother, list_elem_of_here.
Qed.

End ParserContents.

Section ParserOutcome.
Context {Scalar : Type}.
Variable from_proto_id : string -> option GridQubit.
Implicit Types (results r : metric_dict Scalar) (m : @metric Scalar)
  (b : bucket Scalar) (n : pyval) (k : list GridQubit)
  (p : @payload Scalar) (c : @Calibration Scalar).

(** When the loop runs through. *)
Lemma for_metrics_Ok_iff r ms :
  dict_ok r ->
  (exists r', for_metrics from_proto_id r ms = Ok r')
  <-> (forall m, m ∈ ms -> exists k, key_of from_proto_id m = Ok k)
      /\ (forall pre m post, ms = pre ++ m :: post -> targets m = None ->
            (name m ∉ OD.keys r)
            /\ (forall m1, m1 ∈ pre -> name m1 <> name m)).
Proof.
  revert r. induction ms as [|m0 ms IH]; intros r Hok.
  - split; [|by eexists]. intros _. split.
    + intros m Hin. by apply elem_of_nil in Hin.
    + intros pre m post Heq. by destruct pre.
  - simpl. split.
    + intros [r' Hrun].
      destruct (record_metric _ r m0) as [r1|e] eqn:Hm0; simpl in Hrun; [|done].
      pose proof (record_metric_Ok_no_targets _ _ _ _ Hm0) as Hempty.
      apply record_metric_Ok in Hm0 as (key & Hkey & ->).
      pose proof (dict_ok_setitem2 (name m0) key (flat_values m0) r Hok) as Hok1.
      destruct (proj1 (IH _ Hok1) (ex_intro _ r' Hrun)) as [Hkeys Hglobal].
      split.
      * intros m [->|Hin]%elem_of_cons; [by exists key | by apply Hkeys].
      * intros pre m post Heq Ht. destruct pre as [|m1 pre]; simpl in Heq.
        -- injection Heq as <- _. split; [|intros m1 Hin; by apply elem_of_nil in Hin].
           by apply bucket_of_nil_keys, Hempty.
        -- injection Heq as <- ->.
           destruct (Hglobal pre m post eq_refl Ht) as [Hnotin Hpre].
           rewrite keys_setitem2 in Hnotin.
           destruct (decide (name m0 ∈ OD.keys r)) as [Hin1|Hnotin1].
           ++ split; [done|]. intros m' [->|Hin]%elem_of_cons; [|by apply Hpre].
              intros Heq. apply Hnotin. by rewrite <- Heq.
           ++ rewrite elem_of_app, list_elem_of_singleton in Hnotin.
              split; [tauto|].
              intros m' [->|Hin]%elem_of_cons; [|by apply Hpre].
              intros Heq. apply Hnotin. by right.
    + intros [Hkeys Hglobal].
      destruct (Hkeys m0 (list_elem_of_here _ _)) as [key Hkey].
      rewrite (record_metric_succeeds _ _ _ key Hkey).
      2:{ intros Ht. apply bucket_of_nil_keys; [done|].
          by apply (Hglobal [] m0 ms eq_refl Ht). }
      simpl. apply IH; [by apply dict_ok_setitem2|]. split.
      * intros m Hin. by apply Hkeys, list_elem_of_further.
      * intros pre m post -> Ht.
        destruct (Hglobal (m0 :: pre) m post eq_refl Ht) as [Hnotin Hpre].
        split; [|intros m1 Hin; by apply Hpre, list_elem_of_further].
        rewrite keys_setitem2. destruct (decide _); [done|].
        rewrite elem_of_app, list_elem_of_singleton. intros [?|Heq]; [done|].
        by apply (Hpre m0 (list_elem_of_here _ _)).
Qed.

Lemma qubits_of_first_malformed (ts1 ts2 : list string) (t : string)
    (qs : list GridQubit) :
  qubits_of from_proto_id ts1 = Ok qs ->
  from_proto_id t = None ->
  qubits_of from_proto_id (ts1 ++ t :: ts2) = Raise (ProtoIdError t).
Proof.
  revert qs. induction ts1 as [|t1 ts1 IH]; intros qs; simpl.
  - intros _ ->. done.
  - destruct (from_proto_id t1); [|done].
    destruct (qubits_of _ ts1) as [qs1|] eqn:Hqs1; simpl; [|done].
    intros _ Ht. by rewrite (IH qs1).
Qed.

(** X1. For a payload whose timestamp is an integer or plain ASCII text,
    the construction succeeds exactly when the timestamp converts, the
    targets of every record parse, and no record without [targets] comes
    after a record of the same name. *)
Theorem init_succeeds_iff p :
  plain_timestamp (timestampMs p) ->
  (exists c, __init__ from_proto_id p = Ok c)
  <-> (exists t, int (timestampMs p) = Ok t)
      /\ (forall m, m ∈ metrics p -> exists k, key_of from_proto_id m = Ok k)
      /\ (forall pre m post, metrics p = pre ++ m :: post ->
            targets m = None -> forall m1, m1 ∈ pre -> name m1 <> name m).
Proof.
  intros _.
  pose proof (for_metrics_Ok_iff [] (metrics p) dict_ok_nil) as Hiff.
  unfold __init__, _compute_metric_dict. split.
  - intros [c Hc]. destruct (int _) as [t|e]; simpl in Hc; [|done].
    destruct (for_metrics _ _ _) as [r|e] eqn:Hr; simpl in Hc; [|done].
    destruct (proj1 Hiff (ex_intro _ r eq_refl)) as [Hkeys Hglobal].
    split; [by exists t|]. split; [done|].
    intros pre m post Heq Ht. by apply (Hglobal pre m post Heq Ht).
  - intros ([t ->] & Hkeys & Hglobal). simpl.
    destruct (proj2 Hiff) as [r ->]; [|by eexists].
    split; [done|]. intros pre m post Heq Ht.
    split; [apply not_elem_of_nil | by apply (Hglobal pre m post Heq Ht)].
Qed.

(** X2. When the loop reaches a record one of whose targets the parser
    refuses, the construction raises the parser's error for the first such
    target, as stripped of its ['q']. *)
Theorem init_malformed_target p pre m post (t0 : Z) r
    (ts1 ts2 : list string) (t : string) (qs : list GridQubit) :
  metrics p = pre ++ m :: post ->
  int (timestampMs p) = Ok t0 ->
  for_metrics from_proto_id [] pre = Ok r ->
  targets m = Some (ts1 ++ t :: ts2) ->
  qubits_of from_proto_id (strip_q <$> ts1) = Ok qs ->
  from_proto_id (strip_q t) = None ->
  __init__ from_proto_id p = Raise (ProtoIdError (strip_q t)).
Proof.
  intros Hms Ht0 Hpre Hts Hqs Ht.
  unfold __init__, _compute_metric_dict.
  rewrite Ht0, Hms, for_metrics_app, Hpre. simpl.
  unfold record_metric. rewrite Hts, fmap_app, fmap_cons.
  by rewrite (qubits_of_first_malformed _ _ _ qs).
Qed.

(** X3. In a constructed Calibration an entry holds the flattened values of
    the last record of the payload that has this name and this key, and
    there is no entry where no record has them. *)
Theorem constructed_entry_last_writer p c n k :
  __init__ from_proto_id p = Ok c ->
  OD.get k (bucket_of n (_metric_dict c))
  = flat_values <$> last (writers from_proto_id n k (metrics p)).
Proof.
  intros [_ Hd]%init_Ok. rewrite (entry_for_metrics _ _ _ _ n k Hd).
  by destruct (last _).
Qed.

(** X4. In a constructed Calibration the keys of a bucket come in the order
    in which the records of that name first wrote them. *)
Theorem constructed_bucket_keys_order p c n :
  __init__ from_proto_id p = Ok c ->
  OD.keys (bucket_of n (_metric_dict c))
  = first_occurrences (keys_written from_proto_id n (metrics p)).
Proof.
  intros [_ Hd]%init_Ok. rewrite (bucket_keys_for_metrics _ _ _ _ n Hd).
  simpl. apply filter_all. intros k. apply not_elem_of_nil.
Qed.

(** X5. No bucket of a constructed Calibration is empty, and none has a key
    twice. *)
Theorem constructed_buckets_nonempty p c n b :
  __init__ from_proto_id p = Ok c ->
  OD.get n (_metric_dict c) = Some b ->
  b <> [] /\ NoDup (OD.keys b).
Proof.
  intros Hinit Hget.
  destruct (dict_ok_bucket _ _ _ (init_dict_ok _ _ _ Hinit) Hget). done.
Qed.

(** X6. In a constructed Calibration, a record without [targets] that no
    record of the same name follows leaves the bucket of its name with the
    single entry of the empty tuple, holding its flattened values. *)
Theorem global_record_sole_entry p c pre m post :
  __init__ from_proto_id p = Ok c ->
  metrics p = pre ++ m :: post ->
  targets m = None ->
  (forall m', m' ∈ post -> name m' <> name m) ->
  OD.get (name m) (_metric_dict c) = Some [([], flat_values m)].
Proof.
  intros [_ Hd]%init_Ok Hms Ht Hpost.
  rewrite Hms, for_metrics_app in Hd.
  destruct (for_metrics _ [] pre) as [r|e] eqn:Hpre; simpl in Hd; [|done].
  destruct (record_metric _ r m) as [r1|e] eqn:Hm; simpl in Hd; [|done].
  pose proof (record_metric_Ok_no_targets _ _ _ _ Hm Ht) as Hempty.
  apply record_metric_Ok in Hm as (key & Hkey & ->).
  unfold key_of in Hkey. rewrite Ht in Hkey. injection Hkey as <-.
  pose proof (bucket_kept _ _ _ _ (name m) Hd Hpost) as Hb.
  rewrite bucket_of_setitem2, decide_True, Hempty in Hb by done.
  simpl in Hb. unfold bucket_of in Hb.
  destruct (OD.get (name m) (_metric_dict c)) as [b|]; simpl in Hb; [|done].
  by rewrite Hb.
Qed.

(** X7. The flattened values of a record are the values of its tagged
    dictionaries, one dictionary after the other: all the values of a
    dictionary of several keys, none for an empty one. *)
Theorem flat_values_concat m :
  Forall OD.wf (values m) ->
  flat_values m = concat (OD.values <$> values m).
Proof.
  unfold flat_values. induction 1 as [|v vs Hv _ IH]; [done|].
  rewrite bind_cons, IH, fmap_cons. simpl. f_equal.
  clear IH. unfold OD.wf in Hv.
  assert (Hsub : forall d : OD.t string Scalar,
             (forall kv, kv ∈ d -> kv ∈ v) ->
             omap (fun t => OD.get t v) (OD.keys d) = OD.values d).
  { induction d as [|[t x] d IHd]; intros Hd; [done|]. simpl.
    assert (OD.get t v = Some x) as ->.
    { pose proof (Hd (t, x) (list_elem_of_here _ _)) as Hin.
      clear -Hin Hv. induction v as [|[t0 x0] v IHv]; [by apply elem_of_nil in Hin|].
      simpl in *. apply NoDup_cons in Hv as [Hnotin Hv].
      apply elem_of_cons in Hin as [[= -> ->]|Hin]; [by rewrite decide_True|].
      rewrite decide_False; [by apply IHv|]. intros ->. apply Hnotin.
      by apply (list_elem_of_fmap_2 fst) in Hin. }
    f_equal. apply IHd. intros kv Hkv. by apply Hd, list_elem_of_further. }
  by apply Hsub.
Qed.

(** X8. The names that iteration yields are exactly the keys [get] answers:
    a string is among them when and only when [get] returns a bucket for it,
    and their number is the size. *)
Theorem get_iff_iterated c (s : string) :
  exists names,
    __iter__ c = (Ok names, c)
    /\ (PStr s ∈ names <-> exists b, __getitem__ (PStr s) c = (Ok b, c))
    /\ __len__ c = (Ok (length names), c).
Proof.
  exists (OD.keys (_metric_dict c)). split; [done|]. split.
  - rewrite getitem_outcome.
    destruct (OD.get (PStr s) (_metric_dict c)) as [b|] eqn:Hget.
    + split; [by eexists | intros _; by eapply get_Some_keys].
    + split; [|by intros [b [=]]].
      intros Hin. by apply get_None_keys in Hget.
  - unfold __len__, OD.len, OD.keys. by rewrite length_fmap.
Qed.

End ParserOutcome.

(** * Properties of [LineQubit] *)

Section RangeFacts.
Implicit Types (start stop step : Z).

(** The items of a range are those of the progression that lie before
    [stop] (after it, for a negative step). *)
Lemma range_length_lt start stop step (i : Z) :
  step <> 0 -> 0 <= i ->
  i < range_length start stop step
  <-> if (0 <? step)%Z then start + i * step < stop
      else stop < start + i * step.
Proof.
  intros Hstep Hi. unfold range_length.
  destruct (Z.ltb_spec 0 step) as [Hpos|Hneg].
  - destruct (Z.leb_spec stop start) as [Hle|Hlt]; [nia|].
    pose proof (Z.div_mod (stop - start - 1) step ltac:(lia)) as Hdm.
    pose proof (Z.mod_pos_bound (stop - start - 1) step Hpos) as Hmod.
    nia.
  - destruct (Z.leb_spec start stop) as [Hle|Hlt]; [nia|].
    pose proof (Z.div_mod (start - stop - 1) (- step) ltac:(lia)) as Hdm.
    pose proof (Z.mod_pos_bound (start - stop - 1) (- step) ltac:(lia)) as Hmod.
    nia.
Qed.

Lemma range_length_nonneg start stop step :
  step <> 0 -> 0 <= range_length start stop step.
Proof.
  intros Hstep. unfold range_length.
  destruct (0 <? step)%Z eqn:Hs; destruct (_ <=? _)%Z eqn:Hle; try lia.
  - apply Z.ltb_lt in Hs. apply Z.leb_gt in Hle.
    pose proof (Z.div_pos (stop - start - 1) step ltac:(lia) Hs). lia.
  - apply Z.ltb_ge in Hs. apply Z.leb_gt in Hle.
    pose proof (Z.div_pos (start - stop - 1) (- step) ltac:(lia) ltac:(lia)).
    lia.
Qed.

Lemma range_items_lookup start stop step (i : nat) :
  range_items start stop step !! i
  = if decide (Z.of_nat i < range_length start stop step)
    then Some (start + Z.of_nat i * step) else None.
Proof.
  unfold range_items. rewrite list_lookup_fmap.
  destruct (decide _) as [Hlt|Hge].
  - rewrite lookup_seq_lt by lia. done.
  - rewrite lookup_seq_ge by lia. done.
Qed.

Lemma range_lookup start stop step (l : list LineQubit.t) (i : nat) a :
  step <> 0 ->
  LineQubit.range [start; stop; step] = LineQubit.Returns l ->
  l !! i = Some a ->
  LineQubit.x a = start + Z.of_nat i * step
  /\ Z.of_nat i < range_length start stop step.
Proof.
  intros Hstep. unfold LineQubit.range, LineQubit.py_range.
  destruct (Z.eqb_spec step 0) as [|_]; [done|].
  intros [= <-]. rewrite list_lookup_fmap, range_items_lookup.
  destruct (decide _); [|done]. simpl. by intros [= <-].
Qed.

End RangeFacts.

Lemma append_paren_inj (s1 s2 : string) : s1 +:+ ")" = s2 +:+ ")" -> s1 = s2.
Proof.
  assert (Hcons : forall a s t, String a s +:+ t = String a (s +:+ t)) by done.
  assert (Hnil : forall t, "" +:+ t = t) by done.
  revert s2. induction s1 as [|a s1 IH]; intros [|b s2]; [done|..].
  - rewrite Hnil, Hcons. intros [= _ Hrest]. destruct s2; by rewrite ?Hnil, ?Hcons in Hrest.
  - rewrite Hnil, Hcons. intros [= _ Hrest]. destruct s1; by rewrite ?Hnil, ?Hcons in Hrest.
  - rewrite !Hcons. intros [= -> Hrest]. f_equal. by apply IH.
Qed.

Section LineQubitProperties.
Import LineQubit.
Implicit Types (q a b : LineQubit.t) (other : operand).

(** X9. [is_adjacent] holds exactly for the line qubits one step to the
    left or to the right; it holds for no qubit of another kind. *)
Theorem line_is_adjacent_iff q (o : qid) :
  is_adjacent q o = true
  <-> exists q', o = Line q' /\ (x q' = x q + 1 \/ x q' = x q - 1).
Proof.
  destruct o as [q'|g]; simpl.
  - rewrite Z.eqb_eq. split.
    + intros Habs. exists q'. split; [done|]. lia.
    + intros (q'' & [= <-] & Hx). lia.
  - split; [done|]. by intros (q' & [=] & _).
Qed.

(** X10. Adjacency is symmetric, no qubit is adjacent to itself, and
    shifting two qubits by the same integer keeps them adjacent or not. *)
Theorem line_is_adjacent_symmetric a b (n : Z) :
  is_adjacent a (Line b) = is_adjacent b (Line a)
  /\ is_adjacent a (Line a) = false
  /\ (exists a' b', __add__ a (OInt n) = Returns a'
        /\ __add__ b (OInt n) = Returns b'
        /\ is_adjacent a' (Line b') = is_adjacent a (Line b)).
Proof.
  split; [|split].
  - simpl. f_equal. lia.
  - simpl. by rewrite Z.sub_diag.
  - eexists _, _. split; [done|]. split; [done|]. simpl. f_equal. lia.
Qed.

(** X11. For an integer operand, subtraction undoes addition and addition
    undoes subtraction; adding zero changes nothing and adding twice is
    adding the sum. *)
Theorem line_add_sub_round_trip q (n k : Z) :
  (exists q', __add__ q (OInt n) = Returns q'
      /\ __sub__ q' (OInt n) = Returns q)
  /\ (exists q', __sub__ q (OInt n) = Returns q'
      /\ __add__ q' (OInt n) = Returns q)
  /\ __add__ q (OInt 0) = Returns q
  /\ (exists q', __add__ q (OInt n) = Returns q'
      /\ __add__ q' (OInt k) = __add__ q (OInt (n + k))).
Proof.
  destruct q as [xq]. unfold __add__, __sub__. simpl.
  repeat split.
  - eexists. split; [done|]. simpl. do 2 f_equal. lia.
  - eexists. split; [done|]. simpl. do 2 f_equal. lia.
  - do 2 f_equal. lia.
  - eexists. split; [done|]. simpl. do 2 f_equal. lia.
Qed.

(** X12. For an integer [n], [n - q] is the qubit at [n - q.x], which is the
    negation of [q - n]; [n + q] is [q + n]; and negating twice gives the
    qubit back. *)
Theorem line_reflected_arithmetic q (n : Z) :
  __rsub__ q (OInt n) = Returns (mk (n - x q))
  /\ (exists q', __sub__ q (OInt n) = Returns q'
      /\ __rsub__ q (OInt n) = Returns (__neg__ q'))
  /\ __radd__ q (OInt n) = Returns (mk (n + x q))
  /\ __neg__ (__neg__ q) = q.
Proof.
  destruct q as [xq]. unfold __rsub__, __radd__, __add__, __sub__, __neg__.
  simpl. repeat split.
  - do 2 f_equal. lia.
  - eexists. split; [done|]. simpl. do 2 f_equal. lia.
  - do 2 f_equal. lia.
  - f_equal. lia.
Qed.

(** X13. The four operators succeed exactly on an [int] operand (a [bool]
    counts, as one or zero); on anything else, another [LineQubit]
    included, [+] and both reflected operators raise the [TypeError] of
    [__add__], and [-] raises that of [__sub__]. *)
Theorem line_arithmetic_type_errors q other :
  (isinstance_int other = true ->
     __add__ q other = Returns (mk (x q + int_value other))
     /\ __sub__ q other = Returns (mk (x q - int_value other)))
  /\ (isinstance_int other = false ->
     __add__ q other = Raises (TypeError_add other)
     /\ __radd__ q other = Raises (TypeError_add other)
     /\ __rsub__ q other = Raises (TypeError_add other)
     /\ __sub__ q other = Raises (TypeError_sub other))
  /\ isinstance_int (OLine q) = false
  /\ __add__ q (OBool true) = Returns (mk (x q + 1)).
Proof.
  unfold __radd__, __rsub__, __add__, __sub__.
  destruct other; simpl; repeat split; try done.
Qed.

(** X14. [LineQubit.range(n)] is the list of the qubits at [0], [1], ...,
    [n - 1], in this order, and is empty when [n] is not positive. *)
Theorem line_range_stop (n : Z) :
  exists l,
    range [n] = Returns l
    /\ length l = Z.to_nat n
    /\ (forall i : nat, (i < Z.to_nat n)%nat -> l !! i = Some (mk (Z.of_nat i))).
Proof.
  assert (Hlen : range_length 0 n 1 = Z.max 0 n).
  { unfold range_length. simpl. destruct (Z.leb_spec n 0); [lia|].
    rewrite Z.div_1_r. lia. }
  eexists. split; [reflexivity|]. split.
  - unfold range_items. rewrite !length_fmap, length_seq, Hlen. lia.
  - intros i Hi. rewrite list_lookup_fmap, range_items_lookup, Hlen.
    rewrite decide_True by lia. simpl. do 2 f_equal. lia.
Qed.

(** X15. With a step that is not zero, [LineQubit.range(start, stop, step)]
    holds exactly the qubits [start + i * step], [i >= 0], that come
    before [stop] (after it, for a negative step); without the step, the
    step is one. *)
Theorem line_range_members (start stop step : Z) q :
  step <> 0 ->
  exists l,
    range [start; stop; step] = Returns l
    /\ (q ∈ l <->
        exists i : Z, 0 <= i /\ x q = start + i * step
          /\ if (0 <? step)%Z then x q < stop else stop < x q)
    /\ range [start; stop] = range [start; stop; 1]
    /\ range [stop] = range [0; stop; 1].
Proof.
  intros Hstep. unfold range, py_range.
  destruct (Z.eqb_spec step 0) as [|_]; [done|].
  eexists. split; [reflexivity|]. split; [|done].
  rewrite list_elem_of_fmap. split.
  - intros (z & -> & Hz). apply list_elem_of_lookup in Hz as [i Hi].
    rewrite range_items_lookup in Hi. destruct (decide _) as [Hlt|]; [|done].
    injection Hi as <-. exists (Z.of_nat i). split; [lia|]. split; [done|].
    simpl. by apply range_length_lt; [|lia|].
  - intros (i & Hi & Hx & Hbound). exists (x q). split; [by destruct q|].
    apply list_elem_of_lookup. exists (Z.to_nat i).
    rewrite range_items_lookup, Z2Nat.id by done.
    rewrite decide_True; [by rewrite Hx|].
    apply range_length_lt; [done..|]. by rewrite <- Hx.
Qed.

(** X16. The qubits of a range come in the order of their comparison keys,
    increasing for a positive step and decreasing for a negative one; so
    no qubit is listed twice. *)
Theorem line_range_ordered (start stop step : Z) l :
  step <> 0 ->
  range [start; stop; step] = Returns l ->
  (forall (i j : nat) a b, (i < j)%nat -> l !! i = Some a -> l !! j = Some b ->
     if (0 <? step)%Z then _comparison_key a < _comparison_key b
     else _comparison_key b < _comparison_key a)
  /\ NoDup l.
Proof.
  intros Hstep Hl.
  assert (Hord : forall (i j : nat) a b, (i < j)%nat ->
            l !! i = Some a -> l !! j = Some b ->
            if (0 <? step)%Z then _comparison_key a < _comparison_key b
            else _comparison_key b < _comparison_key a).
  { intros i j a b Hij Ha Hb.
    destruct (range_lookup _ _ _ _ _ _ Hstep Hl Ha) as [Hxa _].
    destruct (range_lookup _ _ _ _ _ _ Hstep Hl Hb) as [Hxb _].
    unfold _comparison_key. rewrite Hxa, Hxb.
    destruct (Z.ltb_spec 0 step); nia. }
  split; [exact Hord|].
  apply NoDup_alt. intros i j a Ha Hb.
  destruct (Nat.lt_trichotomy i j) as [Hlt|[->|Hgt]]; [|done|].
  - pose proof (Hord i j a a Hlt Ha Hb) as H. destruct (0 <? step)%Z; lia.
  - pose proof (Hord j i a a Hgt Hb Ha) as H. destruct (0 <? step)%Z; lia.
Qed.

(** X17. In [LineQubit.range(start, stop)], and in a range of step minus
    one, each qubit is adjacent to the next one of the list. *)
Theorem line_range_consecutive_adjacent (start stop step : Z) l (i : nat) a b :
  step = 1 \/ step = -1 ->
  range [start; stop; step] = Returns l ->
  l !! i = Some a -> l !! S i = Some b ->
  is_adjacent a (Line b) = true.
Proof.
  intros Hstep Hl Ha Hb.
  assert (Hnz : step <> 0) by lia.
  destruct (range_lookup _ _ _ _ _ _ Hnz Hl Ha) as [Hxa _].
  destruct (range_lookup _ _ _ _ _ _ Hnz Hl Hb) as [Hxb _].
  simpl. apply Z.eqb_eq. rewrite Hxa, Hxb. lia.
Qed.

(** X18. [range] returns a list exactly when it is given one, two or three
    arguments and the third, if any, is not zero; a zero step raises
    [ValueError] and any other number of arguments [TypeError]. *)
Theorem line_range_errors (range_args : list Z) :
  ((exists l, range range_args = Returns l)
   <-> (1 <= length range_args <= 3)%nat /\ range_args !! 2%nat <> Some 0)
  /\ (range_args !! 2%nat = Some 0 -> length range_args = 3%nat ->
      range range_args = Raises ValueError_range_step)
  /\ (~ (1 <= length range_args <= 3)%nat ->
      range range_args = Raises (TypeError_range (length range_args))).
Proof.
  unfold range, py_range.
  destruct range_args as [|a [|b [|c [|d rest]]]]; simpl.
  - split; [|split]; [|done..]. split; [by intros [l [=]] | lia].
  - split; [|split]; [|done|lia]. split; [intros _; split; [lia|done] | by eexists].
  - split; [|split]; [|done|lia]. split; [intros _; split; [lia|done] | by eexists].
  - destruct (Z.eqb_spec c 0) as [->|Hc].
    + split; [|split]; [|done|lia]. split; [by intros [l [=]] | by intros [_ []]].
    + split; [|split]; [|by intros [=]|lia].
      split; [intros _; split; [lia|by intros [=]] | by eexists].
  - split; [|split]; [|lia|done]. split; [by intros [l [=]] | lia].
Qed.

(** X19. Different qubits print differently, under [repr] and under
    [str]. *)
Theorem line_repr_injective a b :
  (__repr__ a = __repr__ b -> a = b) /\ (__str__ a = __str__ b -> a = b).
Proof.
  destruct a as [xa], b as [xb]. unfold __repr__, __str__. simpl. split.
  - intros Heq. injection Heq as Heq.
    apply append_paren_inj in Heq. f_equal. by apply (inj pretty).
  - intros Heq. f_equal. by apply (inj pretty).
Qed.

End LineQubitProperties.

(** * Decimal text and [int()] *)

Section DecimalText.

Lemma digit_of_pretty_N_char (y : N) :
  (y < 10)%N -> digit_of (pretty_N_char y) = Some (Z.of_N y).
Proof.
  intros Hy.
  assert (y = 0 \/ y = 1 \/ y = 2 \/ y = 3 \/ y = 4 \/ y = 5 \/ y = 6
          \/ y = 7 \/ y = 8 \/ y = 9)%N as Hcases by lia.
  repeat (destruct Hcases as [->|Hcases]; [reflexivity|]). by subst.
Qed.

Lemma digit_not_space_or_sign (c : ascii) :
  is_Some (digit_of c) ->
  is_space c = false /\ c <> "-"%char /\ c <> "+"%char.
Proof.
  unfold digit_of, is_space. intros [d Hd].
  destruct (48 <=? nat_of_ascii c)%nat eqn:Hlo; [|done].
  destruct (nat_of_ascii c <=? 57)%nat eqn:Hhi; [|done].
  apply Nat.leb_le in Hlo, Hhi. repeat split.
  - apply orb_false_iff. split.
    + apply andb_false_iff. right. apply Nat.leb_gt. lia.
    + apply Nat.eqb_neq. lia.
  - intros ->. change (nat_of_ascii "-") with 45%nat in Hlo. lia.
  - intros ->. change (nat_of_ascii "+") with 43%nat in Hlo. lia.
Qed.

Lemma digits_not_space (ds : list ascii) :
  Forall (fun c => is_Some (digit_of c)) ds ->
  Forall (fun c => is_space c = false) ds.
Proof.
  intros Hds. eapply Forall_impl; [exact Hds|].
  intros c Hc. by destruct (digit_not_space_or_sign c Hc).
Qed.

(** The text of a positive number is a run of digits that [int_digits]
    reads back. *)
Lemma pretty_N_go_digits (x : N) :
  (0 < x)%N ->
  exists ds : list ascii,
    ds <> [] /\ Forall (fun c => is_Some (digit_of c)) ds
    /\ (forall s, list_ascii_of_string (pretty_N_go x s)
                  = ds ++ list_ascii_of_string s)
    /\ (forall acc seen rest,
          int_digits acc seen (ds ++ rest)
          = int_digits (acc * 10 ^ Z.of_nat (length ds) + Z.of_N x) true rest).
Proof.
  induction (N.lt_wf_0 x) as [x _ IH]. intros Hx.
  pose proof (digit_of_pretty_N_char (x `mod` 10)%N
                ltac:(by apply N.mod_lt)) as Hdigit.
  pose proof (N.div_mod x 10 ltac:(done)) as Hdm.
  destruct (decide (x `div` 10 = 0)%N) as [Hzero|Hpos].
  - exists [pretty_N_char (x `mod` 10)%N]. split; [done|]. split.
    { repeat constructor. by rewrite Hdigit. }
    split.
    + intros s. rewrite pretty_N_go_step, Hzero by done. done.
    + intros acc seen rest. simpl. rewrite Hdigit. f_equal. lia.
  - destruct (IH (x `div` 10)%N) as (ds & Hne & Hds & Htext & Hread).
    { by apply N.div_lt. }
    { by apply N.neq_0_lt_0. }
    exists (ds ++ [pretty_N_char (x `mod` 10)%N]). split.
    { by destruct ds. }
    split.
    { apply Forall_app. split; [done|]. repeat constructor. by rewrite Hdigit. }
    split.
    + intros s. rewrite pretty_N_go_step, Htext by done.
      by rewrite <- app_assoc.
    + intros acc seen rest. rewrite <- app_assoc, Hread. simpl.
      rewrite Hdigit. f_equal. rewrite length_app. simpl.
      rewrite Nat2Z.inj_add, Z.pow_add_r by lia. lia.
Qed.

Lemma lstrip_not_space (l : list ascii) :
  Forall (fun c => is_space c = false) l -> lstrip l = l.
Proof. intros [|c l' Hc _]; simpl; [done|]. by rewrite Hc. Qed.

Lemma strip_not_space (l : list ascii) :
  Forall (fun c => is_space c = false) l -> strip l = l.
Proof.
  intros Hl. unfold strip. rewrite (lstrip_not_space l Hl).
  rewrite lstrip_not_space; [apply rev_involutive|].
  apply Forall_forall. intros c Hc%list_elem_of_In%in_rev%list_elem_of_In.
  rewrite Forall_forall in Hl. by apply Hl.
Qed.

Lemma int_of_string_unsigned (s : string) (c : ascii) (l : list ascii) :
  strip (list_ascii_of_string s) = c :: l ->
  c <> "-"%char -> c <> "+"%char ->
  int_of_string s = int_digits 0 false (c :: l).
Proof.
  unfold int_of_string. intros -> Hminus Hplus.
  destruct c as [[] [] [] [] [] [] [] []]; done.
Qed.

(** The decimal text of an integer, as [str] and [format] print it, is read
    back by [int()]. *)
Lemma int_of_string_pretty (z : Z) : int_of_string (pretty z) = Some z.
Proof.
  assert (Hpos : forall p : positive,
             exists ds, list_ascii_of_string (pretty p) = ds
               /\ ds <> [] /\ Forall (fun c => is_Some (digit_of c)) ds
               /\ int_digits 0 false ds = Some (Z.pos p)).
  { intros p. destruct (pretty_N_go_digits (N.pos p) ltac:(done))
      as (ds & Hne & Hds & Htext & Hread).
    exists ds. unfold pretty, pretty_positive, pretty, pretty_N.
    rewrite decide_False by done. rewrite Htext. simpl.
    rewrite app_nil_r. split; [done|]. split; [done|]. split; [done|].
    specialize (Hread 0 false []). rewrite app_nil_r in Hread.
    rewrite Hread. simpl. done. }
  destruct z as [|p|p].
  - reflexivity.
  - destruct (Hpos p) as (ds & Htext & Hne & Hds & Hread).
    destruct ds as [|c ds]; [done|].
    assert (Htext' : strip (list_ascii_of_string (pretty (Z.pos p))) = c :: ds).
    { change (pretty (Z.pos p)) with (pretty p). rewrite Htext.
      by apply strip_not_space, digits_not_space. }
    pose proof (Forall_inv Hds) as Hc.
    apply digit_not_space_or_sign in Hc as (_ & Hminus & Hplus).
    rewrite (int_of_string_unsigned _ c ds Htext' Hminus Hplus). exact Hread.
  - destruct (Hpos p) as (ds & Htext & Hne & Hds & Hread).
    unfold int_of_string.
    change (pretty (Z.neg p)) with (String "-" (pretty p)).
    simpl list_ascii_of_string. rewrite Htext.
    rewrite strip_not_space.
    + by rewrite Hread.
    + constructor; [done|]. by apply digits_not_space.
Qed.

End DecimalText.

(** X20. A timestamp given as the decimal text of an integer, or as the
    integer itself, is the timestamp of the constructed Calibration. *)
Theorem timestamp_from_decimal_text {Scalar : Type}
    (from_proto_id : string -> option GridQubit) (z : Z)
    (ms : list (@metric Scalar)) (ts : pyval) c :
  ts = PStr (pretty z) \/ ts = PInt z ->
  __init__ from_proto_id (mkPayload ts ms) = Ok c ->
  timestamp c = z.
Proof.
  intros Hts [Ht _]%init_Ok. simpl in Ht.
  destruct Hts as [-> | ->]; simpl in Ht.
  - rewrite int_of_string_pretty in Ht. by injection Ht.
  - by injection Ht.
Qed.


(** * Concrete runs of the further properties *)

Lemma init_malformed_target_witness :
  __init__ grid_from_proto_id
    (mkPayload (PStr "1000")
       [mkMetric (PStr "t1") [[("double_val", 1)]] (Some ["q0_0"]);
        mkMetric (PStr "t2") [[("double_val", 2)]] (Some ["q0_1"; "qx_1"; "q_"])])
  = Raise (ProtoIdError (strip_q "qx_1")).
Proof.
  apply (init_malformed_target grid_from_proto_id _
           [mkMetric (PStr "t1") [[("double_val", 1)]] (Some ["q0_0"])]
           (mkMetric (PStr "t2") [[("double_val", 2)]]
              (Some ["q0_1"; "qx_1"; "q_"]))
           [] 1000 [(PStr "t1", [([mkGridQubit 0 0], [1])])]
           ["q0_1"] ["q_"] "qx_1" [mkGridQubit 0 1]);
    reflexivity.
Defined.

Lemma constructed_entry_last_writer_witness :
  OD.get [mkGridQubit 0 0]
    (bucket_of (PStr "t1")
       (_metric_dict
          (mkCalibration 1000
             [(PStr "t1", [([mkGridQubit 0 0], [3]); ([mkGridQubit 0 1], [2])])])))
  = flat_values
      <$> last (writers grid_from_proto_id (PStr "t1") [mkGridQubit 0 0]
                  (metrics
                     (mkPayload (PStr "1000")
                        [mkMetric (PStr "t1") [[("double_val", 1)]] (Some ["q0_0"]);
                         mkMetric (PStr "t1") [[("double_val", 2)]] (Some ["q0_1"]);
                         mkMetric (PStr "t1") [[("double_val", 3)]] (Some ["0_0"])]))).
Proof.
  apply (constructed_entry_last_writer grid_from_proto_id). reflexivity.
Defined.

Lemma constructed_bucket_keys_order_witness :
  OD.keys
    (bucket_of (PStr "t1")
       (_metric_dict
          (mkCalibration 1000
             [(PStr "t1", [([mkGridQubit 0 0], [3]); ([mkGridQubit 0 1], [2])])])))
  = first_occurrences
      (keys_written grid_from_proto_id (PStr "t1")
         (metrics
            (mkPayload (PStr "1000")
               [mkMetric (PStr "t1") [[("double_val", 1)]] (Some ["q0_0"]);
                mkMetric (PStr "t1") [[("double_val", 2)]] (Some ["q0_1"]);
                mkMetric (PStr "t1") [[("double_val", 3)]] (Some ["0_0"])]))).
Proof.
  apply (constructed_bucket_keys_order grid_from_proto_id). reflexivity.
Defined.

Lemma constructed_buckets_nonempty_witness :
  [([mkGridQubit 0 0], [321])] <> []
  /\ NoDup (OD.keys [([mkGridQubit 0 0], [321])]).
Proof.
  apply (constructed_buckets_nonempty grid_from_proto_id
           (mkPayload (PStr "1000")
              [mkMetric (PStr "t1") [[("double_val", 321)]] (Some ["q0_0"])])
           (mkCalibration 1000 [(PStr "t1", [([mkGridQubit 0 0], [321])])])
           (PStr "t1"));
    reflexivity.
Defined.

Lemma global_record_sole_entry_witness :
  OD.get (PStr "xeb")
    (_metric_dict
       (mkCalibration 1000
          [(PStr "t1", [([mkGridQubit 0 0], [1])]); (PStr "xeb", [([], [2; 3])])]))
  = Some [([], flat_values
                 (mkMetric (PStr "xeb") [[("double_val", 2)]; [("double_val", 3)]]
                    None))].
Proof.
  apply (global_record_sole_entry grid_from_proto_id
           (mkPayload (PStr "1000")
              [mkMetric (PStr "t1") [[("double_val", 1)]] (Some ["q0_0"]);
               mkMetric (PStr "xeb") [[("double_val", 2)]; [("double_val", 3)]]
                 None])
           (mkCalibration 1000
              [(PStr "t1", [([mkGridQubit 0 0], [1])]);
               (PStr "xeb", [([], [2; 3])])])
           [mkMetric (PStr "t1") [[("double_val", 1)]] (Some ["q0_0"])]
           (mkMetric (PStr "xeb") [[("double_val", 2)]; [("double_val", 3)]]
              None)
           []);
    [reflexivity..|].
  intros m' Hin. by apply elem_of_nil in Hin.
Defined.

Lemma flat_values_concat_witness :
  flat_values
    (mkMetric (PStr "t1") [[("double_val", 1); ("int_val", 2)]; []; [("str_val", 3)]]
       None)
  = concat (OD.values
              <$> [[("double_val", 1); ("int_val", 2)]; []; [("str_val", 3)]]).
Proof.
  apply (flat_values_concat
           (mkMetric (PStr "t1")
              [[("double_val", 1); ("int_val", 2)]; []; [("str_val", 3)]] None)).
  repeat apply Forall_cons_2; [..|apply Forall_nil_2];
    unfold OD.wf; simpl; apply (bool_decide_unpack _); by vm_compute.
Defined.

Lemma line_range_members_witness :
  exists l,
    LineQubit.range [1; 10; 3] = LineQubit.Returns l
    /\ (LineQubit.mk 7 ∈ l <->
        exists i : Z, 0 <= i /\ 7 = 1 + i * 3 /\ 7 < 10)
    /\ LineQubit.range [1; 10] = LineQubit.range [1; 10; 1]
    /\ LineQubit.range [10] = LineQubit.range [0; 10; 1].
Proof. apply (line_range_members 1 10 3 (LineQubit.mk 7)). lia. Defined.

Lemma line_range_ordered_witness :
  (forall (i j : nat) a b, (i < j)%nat ->
     (LineQubit.mk <$> range_items 5 0 (-2)) !! i = Some a ->
     (LineQubit.mk <$> range_items 5 0 (-2)) !! j = Some b ->
     LineQubit._comparison_key b < LineQubit._comparison_key a)
  /\ NoDup (LineQubit.mk <$> range_items 5 0 (-2)).
Proof.
  apply (line_range_ordered 5 0 (-2) (LineQubit.mk <$> range_items 5 0 (-2)));
    [lia | reflexivity].
Defined.

Lemma line_range_consecutive_adjacent_witness :
  LineQubit.is_adjacent (LineQubit.mk 3) (LineQubit.Line (LineQubit.mk 4)) = true.
Proof.
  apply (line_range_consecutive_adjacent 2 6 1
           (LineQubit.mk <$> range_items 2 6 1) 1);
    [by left | reflexivity..].
Defined.

Lemma timestamp_from_decimal_text_witness :
  timestamp
    (mkCalibration (-42) [(PStr "t1", [([mkGridQubit 0 0], [321])])])
  = -42.
Proof.
  apply (timestamp_from_decimal_text grid_from_proto_id (-42)
           [mkMetric (PStr "t1") [[("double_val", 321)]] (Some ["q0_0"])]
           (PStr "-42"));
    [by left | reflexivity].
Defined.

Lemma init_succeeds_iff_witness :
  (exists c,
     __init__ grid_from_proto_id
       (mkPayload (PStr " 1_000 ")
          [mkMetric (PStr "xeb") [[("double_val", 1)]] None;
           mkMetric (PStr "t1") [[("double_val", 2)]] (Some ["q0_0"])])
     = Ok c)
  <-> (exists t, int (PStr " 1_000 ") = Ok t)
      /\ (forall m,
            m ∈ [mkMetric (PStr "xeb") [[("double_val", 1)]] None;
                 mkMetric (PStr "t1") [[("double_val", 2)]] (Some ["q0_0"])] ->
            exists k, key_of grid_from_proto_id m = Ok k)
      /\ (forall pre m post,
            [mkMetric (PStr "xeb") [[("double_val", 1)]] None;
             mkMetric (PStr "t1") [[("double_val", 2)]] (Some ["q0_0"])]
            = pre ++ m :: post ->
            targets m = None -> forall m1, m1 ∈ pre -> name m1 <> name m).
Proof.
  apply (init_succeeds_iff grid_from_proto_id
           (mkPayload (PStr " 1_000 ")
              [mkMetric (PStr "xeb") [[("double_val", 1)]] None;
               mkMetric (PStr "t1") [[("double_val", 2)]] (Some ["q0_0"])])).
  simpl. split; [|lia]. repeat constructor.
Defined.
